(** * Chatify: the socket relay of backend/socket/socketHandler.js

    A shallow embedding of the Socket.IO connection handler and of the
    event handlers it registers (joinChat, leaveChat, sendMessage, typing,
    markAsRead, disconnect, getOnlineUsers), together with the parts of the
    collaborators they call:

    - the Socket.IO server: the connected sockets, the rooms of its adapter
      and the four ways of emitting the handlers use ([socket.emit],
      [socket.broadcast.emit], [io.to(room).emit], [socket.to(room).emit]);
      every emit is recorded as one [Emission]: the set of sockets it is
      addressed to and the frame;
    - the Mongoose collections User, Chat and Message as finite maps from
      document ids to documents, with the queries of the handlers.

    Conventions.
    - All ids (socket ids, user ids, chat ids, message ids, room names) are
      JavaScript strings and are compared as such.
    - [step] runs the handler of one input to completion. The connection
      and disconnect handlers are also given cut at their awaits, in an
      event loop ([loop_step]) where an input may arrive while a handler is
      suspended; there a storage call takes effect when its await resumes.
      The awaits inside the sendMessage and markAsRead handlers are not
      cut.
    - What the environment decides in one handler run is given by an [Env]:
      which storage call rejects, what [new Date()] reads at its k-th call,
      and the ObjectId that [new Message] draws.
    - [console.log] and [console.error] have no effect on the state or on
      the emitted frames, and are left out. *)

From stdpp Require Import gmap strings list fin_maps.

Set Warnings "-clear-no-such-hyp".

Open Scope string_scope.
Open Scope list_scope.

(** ** Data model *)

(** Milliseconds since the epoch, the value of a JavaScript [Date]. *)
Definition Date := Z.
Bind Scope Z_scope with Date.

Record UserDoc := {
  username : string;
  avatar : string;
  isOnline : bool;
  lastSeen : Date
}.

Record ReadEntry := {
  re_user : string;
  readAt : Date
}.

Record MessageDoc := {
  chat : string;
  sender : string;
  content : string;
  messageType : string;
  readBy : list ReadEntry;
  createdAt : Date
}.

Record ChatDoc := {
  participants : list string;
  lastMessage : option string;
  lastActivity : Date
}.

Record Db := {
  users : gmap string UserDoc;
  chats : gmap string ChatDoc;
  messages : gmap string MessageDoc
}.

#[global] Instance ReadEntry_eq_dec : EqDecision ReadEntry.
Proof. solve_decision. Defined.

(** [socket.id], [socket.userId] and [socket.user], the last two set by
    [socketAuth] from the user document found for the token. *)
Record Socket := {
  sid : string;
  userId : string;
  user : UserDoc
}.

(** The value stored in [activeUsers]. *)
Record ActiveUser := {
  socketId : string;
  au_user : UserDoc
}.

(** [populate('sender', 'username avatar')]: the sender reference replaced
    by the selected fields of the user document, or by null when no such
    user exists. *)
Record SenderInfo := {
  si_id : string;
  si_username : string;
  si_avatar : string
}.

Record PopulatedMessage := {
  pm_id : string;
  pm_chat : string;
  pm_sender : option SenderInfo;
  pm_content : string;
  pm_messageType : string;
  pm_readBy : list ReadEntry;
  pm_createdAt : Date
}.

Record UserSummary := {
  us_id : string;
  us_username : string;
  us_avatar : string
}.

(** Frames the server emits, by event name. *)
Inductive Frame :=
| userOnline (uid uname : string)
| userOffline (uid uname : string) (seen : Date)
| newMessage (m : option PopulatedMessage)
| userTyping (uid uname : string) (isTyping : bool)
| messageRead (messageId uid : string) (at_ : Date)
| onlineUsers (l : list UserSummary)
| error (message : string).

Record Emission := {
  recipients : gset string;
  frame : Frame
}.

(** Payloads of the frames a client sends. [messageType] may be absent. *)
Record SendData := {
  sd_chatId : string;
  sd_content : string;
  sd_messageType : option string
}.

Record TypingData := {
  td_chatId : string;
  td_isTyping : bool
}.

Record ReadData := {
  rd_messageId : string;
  rd_chatId : string
}.

Inductive ClientFrame :=
| JoinChat (chatId : string)
| LeaveChat (chatId : string)
| SendMessage (data : SendData)
| Typing (data : TypingData)
| MarkAsRead (data : ReadData)
| GetOnlineUsers.

(** What the server reacts to: an authenticated socket connecting, a frame
    from a socket, a socket disconnecting, and time passing with nothing
    arriving. *)
Inductive Input :=
| Connection (s : Socket)
| FromClient (from : string) (f : ClientFrame)
| Disconnect (from : string)
| Idle (ms : Z).

(** ** The JavaScript [Map] behind [activeUsers]: keys in insertion order *)

Module JsMap.
Section JsMap.
Context {V : Type}.

Fixpoint set (k : string) (v : V) (m : list (string * V)) : list (string * V) :=
  match m with
  | [] => [(k, v)]
  | (k', v') :: m' =>
      if decide (k' = k) then (k, v) :: m' else (k', v') :: set k v m'
  end.

Definition delete (k : string) (m : list (string * V)) : list (string * V) :=
  filter (λ p, p.1 ≠ k) m.

Definition values (m : list (string * V)) : list V := m.*2.
End JsMap.
End JsMap.

(** ** Server state *)

Record Server := {
  activeUsers : list (string * ActiveUser);
  sockets : gmap string Socket;
  listening : gset string;
  rooms : gmap string (gset string);
  db : Db
}.

(** The sockets in a room; a room nobody joined is empty. *)
Definition room (r : string) (w : Server) : gset string :=
  default ∅ (rooms w !! r).

Definition set_activeUsers (f : list (string * ActiveUser) → list (string * ActiveUser))
    (w : Server) : Server :=
  {| activeUsers := f (activeUsers w); sockets := sockets w;
     listening := listening w; rooms := rooms w; db := db w |}.

Definition set_sockets (f : gmap string Socket → gmap string Socket) (w : Server) : Server :=
  {| activeUsers := activeUsers w; sockets := f (sockets w);
     listening := listening w; rooms := rooms w; db := db w |}.

Definition set_listening (f : gset string → gset string) (w : Server) : Server :=
  {| activeUsers := activeUsers w; sockets := sockets w;
     listening := f (listening w); rooms := rooms w; db := db w |}.

Definition set_rooms (f : gmap string (gset string) → gmap string (gset string))
    (w : Server) : Server :=
  {| activeUsers := activeUsers w; sockets := sockets w;
     listening := listening w; rooms := f (rooms w); db := db w |}.

Definition set_db (f : Db → Db) (w : Server) : Server :=
  {| activeUsers := activeUsers w; sockets := sockets w;
     listening := listening w; rooms := rooms w; db := f (db w) |}.

Definition set_users (f : gmap string UserDoc → gmap string UserDoc) (d : Db) : Db :=
  {| users := f (users d); chats := chats d; messages := messages d |}.

Definition set_chats (f : gmap string ChatDoc → gmap string ChatDoc) (d : Db) : Db :=
  {| users := users d; chats := f (chats d); messages := messages d |}.

Definition set_messages (f : gmap string MessageDoc → gmap string MessageDoc) (d : Db) : Db :=
  {| users := users d; chats := chats d; messages := f (messages d) |}.

(** ** Handler runs: state, emitted frames, exceptions *)

Inductive DbCall :=
| UserUpdate | ChatFind | ChatFindOne | MessageSave | ChatSave
| MessageFindById | MessageUpdate.

Inductive Exn :=
| StorageRejected (c : DbCall)
| ValidationError
| DuplicateKey.

Record Env := {
  throws : DbCall → bool;
  now : nat → Date;
  oid : string
}.

Inductive Outcome (A : Type) :=
| Returned (a : A)
| Thrown (e : Exn).
Arguments Returned {A} a.
Arguments Thrown {A} e.

(** A handler body: from the server state and the frames emitted so far to
    the new state, the frames emitted, and a value or an exception. What
    was done before an exception stays done. *)
Definition M (A : Type) : Type :=
  Server → list Emission → Server * list Emission * Outcome A.

Definition ret {A} (a : A) : M A := λ w out, (w, out, Returned a).

Definition bind {A B} (c : M A) (k : A → M B) : M B :=
  λ w out,
    match c w out with
    | (w', out', Returned a) => k a w' out'
    | (w', out', Thrown e) => (w', out', Thrown e)
    end.

#[global] Instance M_ret : MRet M := @ret.
#[global] Instance M_bind : MBind M := λ A B k c, bind c k.

Definition throw {A} (e : Exn) : M A := λ w out, (w, out, Thrown e).

Definition try_catch {A} (body : M A) (handler : Exn → M A) : M A :=
  λ w out,
    match body w out with
    | (w', out', Returned a) => (w', out', Returned a)
    | (w', out', Thrown e) => handler e w' out'
    end.

Definition get : M Server := λ w out, (w, out, Returned w).

Definition modify (f : Server → Server) : M unit := λ w out, (f w, out, Returned tt).

Definition emit (to : gset string) (f : Frame) : M unit :=
  λ w out, (w, out ++ [{| recipients := to; frame := f |}], Returned tt).

(** A storage call the environment may reject. *)
Definition storage (env : Env) (c : DbCall) : M unit :=
  if throws env c then throw (StorageRejected c) else ret tt.

(** ** Socket.IO *)

(** [socket.emit]: to the socket itself. *)
Definition socket_emit (socket : Socket) (f : Frame) : M unit :=
  emit {[ sid socket ]} f.

(** [socket.broadcast.emit]: to every connected socket but this one. *)
Definition socket_broadcast_emit (socket : Socket) (f : Frame) : M unit :=
  w ← get; emit (dom (sockets w) ∖ {[ sid socket ]}) f.

(** [io.to(r).emit]: to every socket in the room. *)
Definition io_to_emit (r : string) (f : Frame) : M unit :=
  w ← get; emit (room r w) f.

(** [socket.to(r).emit]: to every socket in the room but this one. *)
Definition socket_to_emit (socket : Socket) (r : string) (f : Frame) : M unit :=
  w ← get; emit (room r w ∖ {[ sid socket ]}) f.

Definition join (s r : string) (w : Server) : Server :=
  set_rooms (λ rs, <[ r := {[ s ]} ∪ default ∅ (rs !! r) ]> rs) w.

Definition leave (s r : string) (w : Server) : Server :=
  set_rooms (λ rs, <[ r := default ∅ (rs !! r) ∖ {[ s ]} ]> rs) w.

Definition socket_join (socket : Socket) (r : string) : M unit :=
  modify (join (sid socket) r).

Definition socket_leave (socket : Socket) (r : string) : M unit :=
  modify (leave (sid socket) r).

(** A new socket is among the connected ones and in the room named by its
    own id. *)
Definition accept (socket : Socket) (w : Server) : Server :=
  join (sid socket) (sid socket) (set_sockets (λ ss, <[ sid socket := socket ]> ss) w).

(** A closed socket has left every room before its [disconnect] handler
    runs. *)
Definition close (s : string) (w : Server) : Server :=
  set_listening (λ l, l ∖ {[ s ]})
    (set_rooms (λ rs, (λ members, members ∖ {[ s ]}) <$> rs)
       (set_sockets (λ ss, delete s ss) w)).

(** ** Storage: the queries the handlers make *)

Definition MESSAGE_TYPES : list string := ["text"; "image"; "file"].

(** [VALIDATION_RULES.MESSAGE.MAX_LENGTH] of shared/types.js. *)
Definition MESSAGE_MAX_LENGTH : nat := 1000.

(** Modelled from the spec: the Message schema (backend/models/Message.js,
    not among the sources) is taken to fill the [readAt] of a [readBy]
    entry given without one, and [createdAt], with the time of creation
    ("readBy initialized to [{sender, now}]"). The handler supplies the
    users of the entries only. *)
Definition Message_new (chatId senderId text kind : string)
    (readers : list string) (created : Date) : MessageDoc :=
  {| chat := chatId; sender := senderId; content := text; messageType := kind;
     readBy := (λ u, {| re_user := u; readAt := created |}) <$> readers;
     createdAt := created |}.

(** Modelled from the spec: the validators of the Message schema
    (backend/models/Message.js, not among the sources): the content is not
    empty and not longer than the maximum length, and the type is one of
    the recognized kinds. The length of a content is the number of
    characters of the string. *)
Definition Message_validate (m : MessageDoc) : bool :=
  negb (bool_decide (content m = EmptyString))
  && bool_decide (String.length (content m) ≤ MESSAGE_MAX_LENGTH)%nat
  && bool_decide (messageType m ∈ MESSAGE_TYPES).

(** [User.findByIdAndUpdate(id, { isOnline, lastSeen })]. *)
Definition User_findByIdAndUpdate (env : Env) (id : string)
    (online : bool) (seen : Date) : M unit :=
  storage env UserUpdate;;
  modify (set_db (set_users (alter (λ u,
    {| username := username u; avatar := avatar u;
       isOnline := online; lastSeen := seen |}) id))).

(** [Chat.find({ participants: uid })]: the ids of the chats found. *)
Definition Chat_find (env : Env) (uid : string) : M (list string) :=
  storage env ChatFind;;
  w ← get;
  mret (map_to_list (filter (λ kc, uid ∈ participants kc.2) (chats (db w)))).*1.

(** [Chat.findOne({ _id: chatId, participants: uid })]. *)
Definition Chat_findOne (env : Env) (chatId uid : string) : M (option ChatDoc) :=
  storage env ChatFindOne;;
  w ← get;
  mret (match chats (db w) !! chatId with
        | Some c => if bool_decide (uid ∈ participants c) then Some c else None
        | None => None
        end).

(** [message.save()] of a new document: validated against the schema, then
    inserted under its id. *)
Definition Message_save (env : Env) (id : string) (m : MessageDoc) : M unit :=
  if Message_validate m then
    storage env MessageSave;;
    w ← get;
    match messages (db w) !! id with
    | Some _ => throw DuplicateKey
    | None => modify (set_db (set_messages (insert id m)))
    end
  else throw ValidationError.

(** [chat.save()] after the assignments to [lastMessage] and
    [lastActivity]. *)
Definition Chat_save (env : Env) (chatId last : string) (activity : Date) : M unit :=
  storage env ChatSave;;
  modify (set_db (set_chats (alter (λ c,
    {| participants := participants c; lastMessage := Some last;
       lastActivity := activity |}) chatId))).

Definition populate (d : Db) (id : string) (m : MessageDoc) : PopulatedMessage :=
  {| pm_id := id; pm_chat := chat m;
     pm_sender := (λ u, {| si_id := sender m; si_username := username u;
                           si_avatar := avatar u |}) <$> users d !! sender m;
     pm_content := content m; pm_messageType := messageType m;
     pm_readBy := readBy m; pm_createdAt := createdAt m |}.

(** [Message.findById(id).populate('sender', 'username avatar')]. *)
Definition Message_findById_populate (env : Env) (id : string)
    : M (option PopulatedMessage) :=
  storage env MessageFindById;;
  w ← get;
  mret (populate (db w) id <$> messages (db w) !! id).

(** MongoDB's [$addToSet]: the value is appended unless the array already
    holds an equal one; two [{user, readAt}] documents are equal when both
    fields are. *)
Definition addToSet (e : ReadEntry) (l : list ReadEntry) : list ReadEntry :=
  if bool_decide (e ∈ l) then l else l ++ [e].

(** [Message.findByIdAndUpdate(id, { $addToSet: { readBy: e } })]; no
    document with that id: nothing is updated and nothing is thrown. *)
Definition Message_findByIdAndUpdate (env : Env) (id : string) (e : ReadEntry) : M unit :=
  storage env MessageUpdate;;
  modify (set_db (set_messages (alter (λ m,
    {| chat := chat m; sender := sender m; content := content m;
       messageType := messageType m; readBy := addToSet e (readBy m);
       createdAt := createdAt m |}) id))).

(** ** The handlers of socketHandler.js *)

(** The body of [io.on('connection', ...)]; registering the event handlers
    is its last step. *)
Definition on_connection (env : Env) (socket : Socket) : M unit :=
  modify (set_activeUsers (JsMap.set (userId socket)
    {| socketId := sid socket; au_user := user socket |}));;
  User_findByIdAndUpdate env (userId socket) true (now env 0);;
  userChats ← Chat_find env (userId socket);
  modify (λ w, foldl (λ w chatId, join (sid socket) chatId w) w userChats);;
  socket_broadcast_emit socket (userOnline (userId socket) (username (user socket)));;
  modify (set_listening (λ l, {[ sid socket ]} ∪ l)).

Definition on_joinChat (socket : Socket) (chatId : string) : M unit :=
  socket_join socket chatId.

Definition on_leaveChat (socket : Socket) (chatId : string) : M unit :=
  socket_leave socket chatId.

(** The [try] block of the sendMessage handler. *)
Definition sendMessage_try (env : Env) (socket : Socket) (data : SendData) : M unit :=
  let chatId := sd_chatId data in
  let content := sd_content data in
  let messageType := default "text" (sd_messageType data) in
  found ← Chat_findOne env chatId (userId socket);
  match found with
  | None => socket_emit socket (error "Chat not found")
  | Some _ =>
      let message :=
        Message_new chatId (userId socket) content messageType
          [userId socket] (now env 0) in
      Message_save env (oid env) message;;
      Chat_save env chatId (oid env) (now env 1);;
      populatedMessage ← Message_findById_populate env (oid env);
      io_to_emit chatId (newMessage populatedMessage)
  end.

Definition on_sendMessage (env : Env) (socket : Socket) (data : SendData) : M unit :=
  try_catch (sendMessage_try env socket data)
    (λ _, socket_emit socket (error "Failed to send message")).

Definition on_typing (socket : Socket) (data : TypingData) : M unit :=
  socket_to_emit socket (td_chatId data)
    (userTyping (userId socket) (username (user socket)) (td_isTyping data)).

Definition on_markAsRead (env : Env) (socket : Socket) (data : ReadData) : M unit :=
  try_catch
    (let messageId := rd_messageId data in
     let chatId := rd_chatId data in
     Message_findByIdAndUpdate env messageId
       {| re_user := userId socket; readAt := now env 0 |};;
     socket_to_emit socket chatId
       (messageRead messageId (userId socket) (now env 1)))
    (λ _, mret tt).

Definition on_disconnect (env : Env) (socket : Socket) : M unit :=
  modify (set_activeUsers (JsMap.delete (userId socket)));;
  User_findByIdAndUpdate env (userId socket) false (now env 0);;
  socket_broadcast_emit socket
    (userOffline (userId socket) (username (user socket)) (now env 1)).

(** The key of an [activeUsers] entry is the [_id] of its user. *)
Definition on_getOnlineUsers (socket : Socket) : M unit :=
  w ← get;
  socket_emit socket (onlineUsers
    ((λ ka, {| us_id := ka.1; us_username := username (au_user ka.2);
               us_avatar := avatar (au_user ka.2) |}) <$> activeUsers w)).

Definition dispatch (env : Env) (socket : Socket) (f : ClientFrame) : M unit :=
  match f with
  | JoinChat chatId => on_joinChat socket chatId
  | LeaveChat chatId => on_leaveChat socket chatId
  | SendMessage data => on_sendMessage env socket data
  | Typing data => on_typing socket data
  | MarkAsRead data => on_markAsRead env socket data
  | GetOnlineUsers => on_getOnlineUsers socket
  end.

(** ** The server as a transition function *)

(** A handler run from a state: the state it leaves and the frames it
    emitted. An exception no handler caught ends the run there. *)
Definition run_handler (h : M unit) (w : Server) : Server * list Emission :=
  let '(w', out, _) := h w [] in (w', out).

(** One input. A frame from a socket that is not connected, or whose
    handlers were never registered, is dropped. No handler sets a timer, so
    nothing runs while the server is idle. *)
Definition step (env : Env) (i : Input) (w : Server) : Server * list Emission :=
  match i with
  | Connection s => run_handler (on_connection env s) (accept s w)
  | FromClient from f =>
      match sockets w !! from with
      | Some s =>
          if bool_decide (from ∈ listening w)
          then run_handler (dispatch env s f) w
          else (w, [])
      | None => (w, [])
      end
  | Disconnect from =>
      match sockets w !! from with
      | Some s =>
          if bool_decide (from ∈ listening w)
          then run_handler (on_disconnect env s) (close from w)
          else (close from w, [])
      | None => (w, [])
      end
  | Idle _ => (w, [])
  end.

Fixpoint run (tr : list (Env * Input)) (w : Server) : Server * list Emission :=
  match tr with
  | [] => (w, [])
  | (env, i) :: tr' =>
      let '(w1, out1) := step env i w in
      let '(w2, out2) := run tr' w1 in
      (w2, out1 ++ out2)
  end.

(** ** Send requests *)

(** The test of [Chat.findOne({ _id: chatId, participants: uid })]. *)
Definition is_participant (uid chatId : string) (d : Db) : bool :=
  match chats d !! chatId with
  | Some c => bool_decide (uid ∈ participants c)
  | None => false
  end.

(** The document the sendMessage handler builds. *)
Definition new_message (env : Env) (socket : Socket) (data : SendData) : MessageDoc :=
  Message_new (sd_chatId data) (userId socket) (sd_content data)
    (default "text" (sd_messageType data)) [userId socket] (now env 0).

(** A send request the specification rejects in its first step. *)
Definition invalid (data : SendData) : Prop :=
  sd_content data = EmptyString
  ∨ (MESSAGE_MAX_LENGTH < String.length (sd_content data))%nat
  ∨ default "text" (sd_messageType data) ∉ MESSAGE_TYPES.

(** The [try] block of the handler ends in a validation error. *)
Definition rejected_with_ValidationError (env : Env) (socket : Socket)
    (data : SendData) (w : Server) : Prop :=
  (sendMessage_try env socket data w []).2 = Thrown ValidationError.

(** The error frame the handler sends back on the socket itself. *)
Definition to_sender (s : Socket) (msg : string) : Emission :=
  {| recipients := {[ sid s ]}; frame := error msg |}.

(** The state a send leaves when every step of the handler goes through:
    the message stored under its id, the chat pointing to it. *)
Definition after_send (env : Env) (s : Socket) (data : SendData) (w : Server) : Server :=
  set_db (set_chats (alter (λ c,
      {| participants := participants c; lastMessage := Some (oid env);
         lastActivity := now env 1 |}) (sd_chatId data)))
    (set_db (set_messages (insert (oid env) (new_message env s data))) w).

(** ** Connections and disconnections of one identity *)

Inductive PresenceEv :=
| Up (s : string)
| Down (s : string).




Fixpoint ups (tr : list PresenceEv) : nat :=
  match tr with
  | [] => 0
  | Up _ :: tr' => S (ups tr')
  | Down _ :: tr' => ups tr'
  end.

Fixpoint downs (tr : list PresenceEv) : nat :=
  match tr with
  | [] => 0
  | Up _ :: tr' => downs tr'
  | Down _ :: tr' => S (downs tr')
  end.



(** ** What a socket receives *)

(** The frames of [out] addressed to socket [s], in order. *)
Definition delivered (s : string) (out : list Emission) : list Frame :=
  frame <$> filter (λ e, s ∈ recipients e) out.



Definition is_userTyping (u : string) (b : bool) (f : Frame) : bool :=
  match f with
  | userTyping u' _ b' => bool_decide (u' = u) && bool_decide (b' = b)
  | _ => false
  end.

Definition count (p : Frame → bool) (l : list Frame) : nat :=
  length (filter (λ f, p f = true) l).

(** ** The claims of the specification, as predicates *)


(** The typing tracker as the specification words it: after the frames in
    [out], socket [o] has been told once that [u] stopped typing. *)
Definition negative_state_broadcast_once (u o : string) (out : list Emission) : Prop :=
  count (is_userTyping u false) (delivered o out) = 1.

(** The broadcast of a typing frame as the specification words it: no
    socket of the typing user receives anything. *)
Definition no_self_notification (w : Server) (s : Socket) (out : list Emission) : Prop :=
  ∀ o s', sockets w !! o = Some s' → userId s' = userId s → delivered o out = [].

(** Joining rooms touches the rooms only. *)
Definition same_but_rooms (w' w : Server) : Prop :=
  activeUsers w' = activeUsers w ∧ sockets w' = sockets w ∧
  listening w' = listening w ∧ db w' = db w.

(** No storage call rejects in this handler run. *)
Definition fault_free (env : Env) : Prop := ∀ c, throws env c = false.

(** ** Concrete configurations *)

Definition no_faults : DbCall → bool := λ _, false.

Definition at_time (t : Date) (id : string) : Env :=
  {| throws := no_faults; now := λ _, t; oid := id |}.

Definition alice : UserDoc :=
  {| username := "alice"; avatar := "a.png"; isOnline := false; lastSeen := 0%Z |}.
Definition bob : UserDoc :=
  {| username := "bob"; avatar := "b.png"; isOnline := false; lastSeen := 0%Z |}.
Definition carol : UserDoc :=
  {| username := "carol"; avatar := "c.png"; isOnline := false; lastSeen := 0%Z |}.

Definition phone : Socket := {| sid := "s1"; userId := "A"; user := alice |}.
Definition laptop : Socket := {| sid := "s2"; userId := "A"; user := alice |}.
Definition desk : Socket := {| sid := "s3"; userId := "B"; user := bob |}.
Definition guest : Socket := {| sid := "s4"; userId := "C"; user := carol |}.

(** Alice and Bob share the chat "c1"; Carol is in no chat. *)
Definition db0 : Db :=
  {| users := {[ "A" := alice; "B" := bob; "C" := carol ]};
     chats := {[ "c1" := {| participants := ["A"; "B"]; lastMessage := None;
                            lastActivity := 0%Z |} ]};
     messages := ∅ |}.

Definition server0 : Server :=
  {| activeUsers := []; sockets := ∅; listening := ∅; rooms := ∅; db := db0 |}.

(** Bob is connected. *)
Definition server_bob : Server := (step (at_time 1 "m0") (Connection desk) server0).1.


(** Bob, and Alice on two devices, are connected. *)
Definition server_all : Server :=
  (run [ (at_time 1 "m0", Connection desk); (at_time 2 "m0", Connection phone);
         (at_time 3 "m0", Connection laptop) ] server0).1.

(** Bob, Alice on two devices, and Carol are connected. *)
Definition server_guest : Server :=
  (step (at_time 4 "m0") (Connection guest) server_all).1.

Definition hi : SendData :=
  {| sd_chatId := "c1"; sd_content := "hi"; sd_messageType := None |}.

Definition empty_send : SendData :=
  {| sd_chatId := "c1"; sd_content := EmptyString; sd_messageType := None |}.

Definition typing_c1 (b : bool) : ClientFrame :=
  Typing {| td_chatId := "c1"; td_isTyping := b |}.

(** Alice starts typing on her phone; then nothing arrives for a minute. *)
Definition typing_then_silence : list (Env * Input) :=
  [ (at_time 10 "m1", FromClient "s1" (typing_c1 true));
    (at_time 60010 "m1", Idle 60000) ].

(** Alice has sent "hi" to chat "c1" at time 10; the message is "m1". *)
Definition server_hi : Server :=
  (step (at_time 10 "m1") (FromClient "s1" (SendMessage hi)) server_guest).1.

Definition read_m1 : ClientFrame :=
  MarkAsRead {| rd_messageId := "m1"; rd_chatId := "c1" |}.

(** Bob marks "m1" read at time 20, and again at time 30. *)
Definition read_once : Server * list Emission :=
  step (at_time 20 "m2") (FromClient "s3" read_m1) server_hi.

Definition read_twice : Server * list Emission :=
  step (at_time 30 "m2") (FromClient "s3" read_m1) read_once.1.

(** The [readBy] entries of a user. *)
Definition entries_of (u : string) (l : list ReadEntry) : list ReadEntry :=
  filter (λ e, re_user e = u) l.

(** ** Invariants of the server state *)

(** What every reachable state satisfies: a socket is stored under its own
    id, the members of a room and the sockets with registered handlers are
    connected sockets, and [activeUsers] has one entry per key. *)
Definition consistent (w : Server) : Prop :=
  (∀ k s, sockets w !! k = Some s → sid s = k) ∧
  (∀ r members, rooms w !! r = Some members → members ⊆ dom (sockets w)) ∧
  listening w ⊆ dom (sockets w) ∧
  NoDup (activeUsers w).*1.

(** Every frame of [out] is addressed to sockets connected in [w]. *)
Definition addressed_to_connected (w : Server) (out : list Emission) : Prop :=
  ∀ e, e ∈ out → recipients e ⊆ dom (sockets w).

(** A handler body keeps the state consistent, leaves the connected
    sockets as they are and addresses connected sockets only, provided the
    sockets [S] it emits to by id are connected. *)
Definition keeps (S : gset string) {A} (c : M A) : Prop :=
  ∀ w out,
    consistent w → S ⊆ dom (sockets w) → addressed_to_connected w out →
    consistent (c w out).1.1 ∧
    sockets (c w out).1.1 = sockets w ∧
    addressed_to_connected (c w out).1.1 (c w out).1.2.

(** The [onlineUsers] entry of an [activeUsers] entry. *)
Definition summary (ka : string * ActiveUser) : UserSummary :=
  {| us_id := ka.1; us_username := username (au_user ka.2);
     us_avatar := avatar (au_user ka.2) |}.

(** The update [{ isOnline, lastSeen }] of a user document. *)
Definition set_presence (online : bool) (seen : Date) (u : UserDoc) : UserDoc :=
  {| username := username u; avatar := avatar u; isOnline := online; lastSeen := seen |}.

(** The update of a chat after a send. *)
Definition touch (last : string) (activity : Date) (c : ChatDoc) : ChatDoc :=
  {| participants := participants c; lastMessage := Some last;
     lastActivity := activity |}.

(** ** How the stored data evolves *)

Definition same_identity (u u' : UserDoc) : Prop :=
  username u' = username u ∧ avatar u' = avatar u.

Definition same_participants (c c' : ChatDoc) : Prop :=
  participants c' = participants c.

(** A message keeps everything but its [readBy], which only grows at the
    end. *)
Definition grown (m m' : MessageDoc) : Prop :=
  chat m' = chat m ∧ sender m' = sender m ∧ content m' = content m ∧
  messageType m' = messageType m ∧ createdAt m' = createdAt m ∧
  readBy m `prefix_of` readBy m'.

(** From [d] to [d']: the same users under the same names, the same chats
    with the same participants, and every message of [d] still there,
    grown. *)
Definition db_evolves (d d' : Db) : Prop :=
  (∀ id, option_Forall2 same_identity (users d !! id) (users d' !! id)) ∧
  (∀ id, option_Forall2 same_participants (chats d !! id) (chats d' !! id)) ∧
  (∀ id m, messages d !! id = Some m →
     ∃ m', messages d' !! id = Some m' ∧ grown m m').

(** A handler body makes the stored data evolve. *)
Definition evolving {A} (c : M A) : Prop :=
  ∀ w out, db_evolves (db w) (db (c w out).1.1).

(** ** Authentication of a connection: socketAuth *)

Definition AUTH_ERROR_MESSAGE : string := "Authentication error".

(** [socketAuth], run by [io.use] before the connection handler.
    [jwt_verify t] is the [userId] of the payload of [t] when [jwt.verify]
    accepts [t] and the payload carries one; [find_rejects] tells whether
    [User.findById] rejects; [token] is [socket.handshake.auth.token], and
    an empty string is as good as none for [!token]. The result is the
    error passed to [next], or the socket with [userId] and [user] set. *)
Definition socketAuth (jwt_verify : string → option string) (find_rejects : bool)
    (token : option string) (id : string) (d : Db) : string + Socket :=
  match token with
  | None => inl AUTH_ERROR_MESSAGE
  | Some t =>
      if bool_decide (t = EmptyString) then inl AUTH_ERROR_MESSAGE
      else
        match jwt_verify t with
        | None => inl AUTH_ERROR_MESSAGE
        | Some uid =>
            if find_rejects then inl AUTH_ERROR_MESSAGE
            else
              match users d !! uid with
              | None => inl AUTH_ERROR_MESSAGE
              | Some u => inr {| sid := id; userId := uid; user := u |}
              end
        end
  end.

(** A connection attempt: the middleware, then the connection handler for
    the socket it lets through. A refused attempt reaches no handler. *)
Definition connection_attempt (jwt_verify : string → option string) (find_rejects : bool)
    (env : Env) (token : option string) (id : string) (w : Server)
    : string + Server * list Emission :=
  match socketAuth jwt_verify find_rejects token id (db w) with
  | inl e => inl e
  | inr socket => inr (step env (Connection socket) w)
  end.

(** ** The REST route POST /api/chats/:chatId/messages *)

Inductive Response :=
| Created (m : option PopulatedMessage)
| BadRequest (errors : list string)
| NotFound (message : string)
| ServerError (message : string).

(** The handler of the route for the authenticated user [me]
    ([req.user._id]): the validator [body('content').notEmpty()], the
    membership lookup, and the steps of the socket handler up to the
    populate; the answer is a status with its body. *)
Definition post_message (env : Env) (me chatId text : string)
    (kind : option string) : M Response :=
  try_catch
    (if bool_decide (text = EmptyString)
     then mret (BadRequest ["Message content is required"])
     else
       found ← Chat_findOne env chatId me;
       match found with
       | None => mret (NotFound "Chat not found")
       | Some _ =>
           let message :=
             Message_new chatId me text (default "text" kind) [me] (now env 0) in
           Message_save env (oid env) message;;
           Chat_save env chatId (oid env) (now env 1);;
           populatedMessage ← Message_findById_populate env (oid env);
           mret (Created populatedMessage)
       end)
    (λ _, mret (ServerError "Server error")).

(** ** The client: presence in SocketContext *)

(** An element of the client's [onlineUsers] array: the payload of a
    [userOnline] frame, which has a [userId] and no [id], or an element of
    an [onlineUsers] frame, which has an [id] and no [userId]. *)
Inductive OnlineEntry :=
| FromEvent (uid uname : string)
| FromSnapshot (s : UserSummary).

(** [u.userId] and [u.id]; [None] is [undefined]. *)
Definition entry_userId (u : OnlineEntry) : option string :=
  match u with FromEvent uid _ => Some uid | FromSnapshot _ => None end.

Definition entry_id (u : OnlineEntry) : option string :=
  match u with FromEvent _ _ => None | FromSnapshot s => Some (us_id s) end.

(** The updaters the client passes to [setOnlineUsers]. *)
Definition client_userOnline (uid uname : string) (prev : list OnlineEntry)
    : list OnlineEntry :=
  match list_find (λ u, entry_userId u = Some uid) prev with
  | Some _ => prev
  | None => prev ++ [FromEvent uid uname]
  end.

Definition client_userOffline (uid : string) (prev : list OnlineEntry)
    : list OnlineEntry :=
  filter (λ u, entry_userId u ≠ Some uid) prev.

(** What a frame does to the client's [onlineUsers]. *)
Definition client_presence (f : Frame) (prev : list OnlineEntry) : list OnlineEntry :=
  match f with
  | userOnline uid uname => client_userOnline uid uname prev
  | userOffline uid _ _ => client_userOffline uid prev
  | onlineUsers l => FromSnapshot <$> l
  | _ => prev
  end.

(** [isUserOnline(userId)]; the argument may be [undefined]. *)
Definition isUserOnline (q : option string) (l : list OnlineEntry) : bool :=
  bool_decide (Exists (λ u, entry_userId u = q ∨ entry_id u = q) l).

(** ** The client: typing indicators in SocketContext *)

(** The payload the server sends with [userTyping]: it has no [chatId]. *)
Record TypingPayload := {
  tp_userId : string;
  tp_username : string;
  tp_isTyping : bool
}.

(** JavaScript objects used as maps, keys in insertion order (no key here
    is an array index); [obj_get] is [o[k]], [None] when absent. *)
Fixpoint obj_get {V} (k : string) (o : list (string * V)) : option V :=
  match o with
  | [] => None
  | (k', v) :: o' => if decide (k' = k) then Some v else obj_get k o'
  end.

(** The property key [data.chatId] is converted to: [data.chatId] is
    [undefined] in every frame the server sends. *)
Definition typing_key : string := "undefined".

Definition TypingUsers : Type := list (string * list (string * option TypingPayload)).

(** The updater of the [userTyping] listener. *)
Definition client_userTyping (data : TypingPayload) (prev : TypingUsers) : TypingUsers :=
  JsMap.set typing_key
    (JsMap.set (tp_userId data) (if tp_isTyping data then Some data else None)
       (default [] (obj_get typing_key prev)))
    prev.

(** The updater run by the timer the listener sets after a positive
    state. *)
Definition client_typing_timeout (data : TypingPayload) (prev : TypingUsers)
    : TypingUsers :=
  JsMap.set typing_key
    (JsMap.set (tp_userId data) None (default [] (obj_get typing_key prev)))
    prev.

Inductive TypingEv :=
| Received (data : TypingPayload)
| TimerFired (data : TypingPayload).

Definition client_typing (e : TypingEv) (prev : TypingUsers) : TypingUsers :=
  match e with
  | Received data => client_userTyping data prev
  | TimerFired data => client_typing_timeout data prev
  end.

(** [getChatTypingUsers(chatId)]: the values under the chat that are not
    null. *)
Definition getChatTypingUsers (chatId : string) (t : TypingUsers) : list TypingPayload :=
  omap id (JsMap.values (default [] (obj_get chatId t))).

(** ** The client: the message list of the chat window *)

(** [handleNewMessage]: [viewing] is [chat?._id], the chat the window
    shows, if any. *)
Definition handleNewMessage (viewing : option string) (message : PopulatedMessage)
    (prev : list PopulatedMessage) : list PopulatedMessage :=
  if bool_decide (Some (pm_chat message) = viewing) then prev ++ [message] else prev.

(** ** The client: the reducer of AuthContext *)

Section AuthReducer.
Context {U : Type}.

(** The state of the reducer, with the token kept in [localStorage]. *)
Record AuthState := {
  as_user : option U;
  as_token : option string;
  isAuthenticated : bool;
  loading : bool;
  stored_token : option string
}.

Inductive AuthAction :=
| LOGIN_SUCCESS (u : U) (token : string)
| REGISTER_SUCCESS (u : U) (token : string)
| USER_LOADED (u : U)
| AUTH_ERROR
| LOGOUT
| SET_LOADING (b : bool)
| OTHER.

Definition initialState (stored : option string) : AuthState :=
  {| as_user := None; as_token := stored; isAuthenticated := false;
     loading := true; stored_token := stored |}.

Definition authReducer (state : AuthState) (action : AuthAction) : AuthState :=
  match action with
  | LOGIN_SUCCESS u token | REGISTER_SUCCESS u token =>
      {| as_user := Some u; as_token := Some token; isAuthenticated := true;
         loading := false; stored_token := Some token |}
  | USER_LOADED u =>
      {| as_user := Some u; as_token := as_token state; isAuthenticated := true;
         loading := false; stored_token := stored_token state |}
  | AUTH_ERROR | LOGOUT =>
      {| as_user := None; as_token := None; isAuthenticated := false;
         loading := false; stored_token := None |}
  | SET_LOADING b =>
      {| as_user := as_user state; as_token := as_token state;
         isAuthenticated := isAuthenticated state; loading := b;
         stored_token := stored_token state |}
  | OTHER => state
  end.

End AuthReducer.
Arguments AuthState : clear implicits.
Arguments AuthAction : clear implicits.

(** ** The event loop: handlers suspended at their awaits *)

#[global] Instance UserDoc_eq_dec : EqDecision UserDoc.
Proof. solve_decision. Defined.

#[global] Instance Socket_eq_dec : EqDecision Socket.
Proof. solve_decision. Defined.

(** Where a connection or disconnect handler waits: the connection handler
    at [await User.findByIdAndUpdate] and then at [await Chat.find], the
    disconnect handler at [await User.findByIdAndUpdate]. *)
Inductive Stage :=
| AwaitOnlineUpdate
| AwaitUserChats
| AwaitOfflineUpdate.

#[global] Instance Stage_eq_dec : EqDecision Stage.
Proof. solve_decision. Defined.

(** A suspended handler: the socket it runs for, what the environment
    decides for this run, and where it waits. *)
Record Suspended := {
  su_env : Env;
  su_socket : Socket;
  su_stage : Stage
}.

Record Loop := {
  server : Server;
  waiting : list Suspended
}.

(** The connection handler, cut at its awaits: what runs when the
    connection arrives, what the first await resumes with, and what runs
    from the second await to the end, the registration of the listeners
    included. *)
Definition connection_before_awaits (socket : Socket) : M unit :=
  modify (set_activeUsers (JsMap.set (userId socket)
    {| socketId := sid socket; au_user := user socket |})).

Definition connection_update (env : Env) (socket : Socket) : M unit :=
  User_findByIdAndUpdate env (userId socket) true (now env 0).

Definition connection_after_find (env : Env) (socket : Socket) : M unit :=
  userChats ← Chat_find env (userId socket);
  modify (λ w, foldl (λ w chatId, join (sid socket) chatId w) w userChats);;
  socket_broadcast_emit socket (userOnline (userId socket) (username (user socket)));;
  modify (set_listening (λ l, {[ sid socket ]} ∪ l)).

(** The disconnect handler, cut at its await. *)
Definition disconnect_before_await (socket : Socket) : M unit :=
  modify (set_activeUsers (JsMap.delete (userId socket))).

Definition disconnect_after_await (env : Env) (socket : Socket) : M unit :=
  User_findByIdAndUpdate env (userId socket) false (now env 0);;
  socket_broadcast_emit socket
    (userOffline (userId socket) (username (user socket)) (now env 1)).

(** A suspended handler resumes: the storage call it waited for takes
    effect or rejects, and the handler runs on to its next await (the stage
    returned) or to its end. *)
Definition resume_task (t : Suspended) : M (option Stage) :=
  match su_stage t with
  | AwaitOnlineUpdate =>
      connection_update (su_env t) (su_socket t);; mret (Some AwaitUserChats)
  | AwaitUserChats =>
      connection_after_find (su_env t) (su_socket t);; mret None
  | AwaitOfflineUpdate =>
      disconnect_after_await (su_env t) (su_socket t);; mret None
  end.

(** What the loop takes next: an input arriving, or the [n]-th suspended
    handler resuming. *)
Inductive Event :=
| Arrives (env : Env) (i : Input)
| Resumes (n : nat).

Definition suspend (env : Env) (socket : Socket) (stage : Stage) (L : list Suspended)
    : list Suspended :=
  L ++ [{| su_env := env; su_socket := socket; su_stage := stage |}].

(** One turn of the loop. A connection or a disconnection runs its handler
    up to the first await and suspends it; a disconnection of a socket
    whose listeners are not registered yet finds no handler. A handler that
    resumes and throws is over (nothing catches the rejection). Client
    frames and idle time are handled as by [step]. *)
Definition loop_step (e : Event) (L : Loop) : Loop * list Emission :=
  match e with
  | Arrives env (Connection s) =>
      let '(w', out) :=
        run_handler (connection_before_awaits s) (accept s (server L)) in
      ({| server := w'; waiting := suspend env s AwaitOnlineUpdate (waiting L) |}, out)
  | Arrives env (Disconnect from) =>
      match sockets (server L) !! from with
      | Some s =>
          if bool_decide (from ∈ listening (server L))
          then
            let '(w', out) :=
              run_handler (disconnect_before_await s) (close from (server L)) in
            ({| server := w'; waiting := suspend env s AwaitOfflineUpdate (waiting L) |},
             out)
          else ({| server := close from (server L); waiting := waiting L |}, [])
      | None => (L, [])
      end
  | Arrives env i =>
      let '(w', out) := step env i (server L) in
      ({| server := w'; waiting := waiting L |}, out)
  | Resumes n =>
      match waiting L !! n with
      | None => (L, [])
      | Some t =>
          match resume_task t (server L) [] with
          | (w', out, Returned (Some stage)) =>
              ({| server := w';
                  waiting := <[ n := {| su_env := su_env t; su_socket := su_socket t;
                                        su_stage := stage |} ]> (waiting L) |}, out)
          | (w', out, _) =>
              ({| server := w'; waiting := delete n (waiting L) |}, out)
          end
      end
  end.

Fixpoint loop_run (tr : list Event) (L : Loop) : Loop * list Emission :=
  match tr with
  | [] => (L, [])
  | e :: tr' =>
      let '(L1, out1) := loop_step e L in
      let '(L2, out2) := loop_run tr' L1 in
      (L2, out1 ++ out2)
  end.

(** *** Connections and disconnections of one identity, in the loop *)











(** The answer the specification asks for a send from a non-participant. *)
Definition answered_NotFound (s : Socket) (out : list Emission) : Prop :=
  out = [to_sender s "Chat not found"].

(** A suspended handler. *)
Definition task (env : Env) (s : Socket) (stage : Stage) : Suspended :=
  {| su_env := env; su_socket := s; su_stage := stage |}.


(** A connection of socket [s] and a disconnection of the same socket that
    arrives while the connection handler is suspended: at its first await
    ([early]) or at its second. [n] is the place of the handler among the
    suspended ones. *)
Definition racing_disconnect (early : bool) (env env' : Env) (s : Socket) (n : nat)
    : list Event :=
  Arrives env (Connection s)
  :: (if early then [Arrives env' (Disconnect (sid s)); Resumes n]
      else [Resumes n; Arrives env' (Disconnect (sid s))])
  ++ [Resumes n].


(** The save of the chat rejects; every other storage call goes through. *)
Definition chat_save_down : Env :=
  {| throws := λ c, match c with ChatSave => true | _ => false end;
     now := λ _, 10%Z; oid := "m1" |}.

(** The membership lookup rejects. *)
Definition lookup_down : Env :=
  {| throws := λ c, match c with ChatFindOne => true | _ => false end;
     now := λ _, 10%Z; oid := "m1" |}.

(** The update of a message rejects. *)
Definition update_down : Env :=
  {| throws := λ c, match c with MessageUpdate => true | _ => false end;
     now := λ _, 20%Z; oid := "m2" |}.

(** A verifier that knows one token, Alice's. *)
Definition token_of_alice (t : string) : option string :=
  if bool_decide (t = "tokA") then Some "A" else None.



(** Bob is connected; no handler is suspended. *)
Definition loop_bob : Loop := {| server := server_bob; waiting := [] |}.


(** * Properties *)

(** ** Running handlers *)

Ltac m_unfold :=
  unfold mbind, mret, M_bind, M_ret, bind, ret, try_catch, throw, get,
    modify, emit, storage in *.

Lemma run_cons env i tr w :
  run ((env, i) :: tr) w =
    ((run tr (step env i w).1).1, (step env i w).2 ++ (run tr (step env i w).1).2).
Proof. simpl. destruct (step env i w) as [w1 o1]. simpl. by destruct (run tr w1). Qed.


Lemma delivered_one_in o R f :
  o ∈ R → delivered o [{| recipients := R; frame := f |}] = [f].
Proof. intros H. unfold delivered. by rewrite filter_cons_True. Qed.

Lemma delivered_one_out o R f :
  o ∉ R → delivered o [{| recipients := R; frame := f |}] = [].
Proof. intros H. unfold delivered. by rewrite filter_cons_False. Qed.


Lemma count_cons p f l : count p (f :: l) = (if p f then 1 else 0) + count p l.
Proof.
  unfold count. destruct (p f) eqn:E.
  - by rewrite filter_cons_True.
  - rewrite filter_cons_False; [done | by rewrite E].
Qed.

(** ** Presence *)

Lemma foldl_join_fields s (l : list string) w :
  same_but_rooms (foldl (λ w chatId, join s chatId w) w l) w.
Proof.
  revert w. induction l as [|c l IH]; intros w; simpl; [done|].
  destruct (IH (join s c w)) as (H1 & H2 & H3 & H4).
  unfold same_but_rooms. by rewrite H1, H2, H3, H4.
Qed.

(** A connection whose storage calls succeed: one [userOnline], addressed
    to every socket connected before it. *)
Lemma step_connection env s w :
  fault_free env →
  (step env (Connection s) w).2 =
    [{| recipients := dom (sockets w) ∖ {[ sid s ]};
        frame := userOnline (userId s) (username (user s)) |}] ∧
  sockets (step env (Connection s) w).1 = <[ sid s := s ]> (sockets w) ∧
  listening (step env (Connection s) w).1 = {[ sid s ]} ∪ listening w.
Proof.
  intros Hok. unfold step, run_handler, on_connection, User_findByIdAndUpdate,
    Chat_find, socket_broadcast_emit.
  m_unfold. rewrite !Hok. simpl.
  match goal with |- context [foldl ?f ?w0 ?l] =>
    destruct (foldl_join_fields (sid s) l w0) as (_ & Hs & Hl & _) end.
  simpl in Hs, Hl. rewrite Hs, Hl. split; [|done].
  do 2 f_equal. rewrite dom_insert_L. set_solver.
Qed.

(** A disconnection whose storage call succeeds: one [userOffline],
    addressed to every socket that remains. *)
Lemma step_disconnect env s sock w :
  fault_free env →
  sockets w !! s = Some sock →
  s ∈ listening w →
  (step env (Disconnect s) w).2 =
    [{| recipients := dom (sockets w) ∖ {[ s ]} ∖ {[ sid sock ]};
        frame := userOffline (userId sock) (username (user sock)) (now env 1) |}] ∧
  sockets (step env (Disconnect s) w).1 = delete s (sockets w) ∧
  listening (step env (Disconnect s) w).1 = listening w ∖ {[ s ]}.
Proof.
  intros Hok Hs Hl. unfold step. rewrite Hs, bool_decide_true by done.
  unfold run_handler, on_disconnect, User_findByIdAndUpdate, socket_broadcast_emit.
  m_unfold. rewrite !Hok. simpl. by rewrite dom_delete_L.
Qed.


(** ** Sending a message *)

Lemma step_frame env from s f w :
  sockets w !! from = Some s → from ∈ listening w →
  step env (FromClient from f) w = run_handler (dispatch env s f) w.
Proof. intros Hs Hl. unfold step. by rewrite Hs, bool_decide_true. Qed.

Lemma bind_run {A B} (c : M A) (k : A → M B) w out :
  (c ≫= k) w out =
    match c w out with
    | (w', out', Returned a) => k a w' out'
    | (w', out', Thrown e) => (w', out', Thrown e)
    end.
Proof. reflexivity. Qed.

Lemma Chat_findOne_run env chatId uid w out :
  throws env ChatFindOne = false →
  Chat_findOne env chatId uid w out =
    (w, out, Returned (if is_participant uid chatId (db w)
                       then chats (db w) !! chatId else None)).
Proof.
  intros Hok. unfold Chat_findOne, is_participant. m_unfold. rewrite Hok. simpl.
  destruct (chats (db w) !! chatId) as [c|]; [|done].
  by destruct (bool_decide _).
Qed.

Lemma Chat_findOne_throws env chatId uid w out :
  throws env ChatFindOne = true →
  Chat_findOne env chatId uid w out = (w, out, Thrown (StorageRejected ChatFindOne)).
Proof. intros Hok. unfold Chat_findOne. m_unfold. by rewrite Hok. Qed.

Lemma invalid_not_validated env s data :
  invalid data → Message_validate (new_message env s data) = false.
Proof.
  unfold invalid, Message_validate, new_message, Message_new. simpl.
  intros [H | [H | H]].
  - by rewrite (bool_decide_true _ H).
  - rewrite (bool_decide_false (_ ≤ _)%nat) by lia. by rewrite andb_false_r.
  - rewrite (bool_decide_false _ H). by rewrite andb_false_r.
Qed.

Lemma try_lookup_throws env s data w out :
  throws env ChatFindOne = true →
  sendMessage_try env s data w out = (w, out, Thrown (StorageRejected ChatFindOne)).
Proof.
  intros H. unfold sendMessage_try. cbv zeta.
  by rewrite bind_run, Chat_findOne_throws.
Qed.

Lemma try_not_participant env s data w out :
  throws env ChatFindOne = false →
  is_participant (userId s) (sd_chatId data) (db w) = false →
  sendMessage_try env s data w out =
    (w, out ++ [to_sender s "Chat not found"], Returned tt).
Proof.
  intros H Hp. unfold sendMessage_try. cbv zeta.
  rewrite bind_run, Chat_findOne_run, Hp by done. reflexivity.
Qed.

Lemma try_invalid env s data w out :
  throws env ChatFindOne = false →
  is_participant (userId s) (sd_chatId data) (db w) = true →
  Message_validate (new_message env s data) = false →
  sendMessage_try env s data w out = (w, out, Thrown ValidationError).
Proof.
  intros H Hp Hv. unfold sendMessage_try. cbv zeta.
  rewrite bind_run, Chat_findOne_run, Hp by done.
  unfold is_participant in Hp.
  destruct (chats (db w) !! sd_chatId data) as [c|]; [|discriminate].
  rewrite bind_run. unfold Message_save. fold (new_message env s data).
  by rewrite Hv.
Qed.

Lemma try_success env s data w out :
  fault_free env →
  is_participant (userId s) (sd_chatId data) (db w) = true →
  Message_validate (new_message env s data) = true →
  messages (db w) !! oid env = None →
  sendMessage_try env s data w out =
    (after_send env s data w,
     out ++ [{| recipients := room (sd_chatId data) w;
                frame := newMessage
                  (Some (populate (db w) (oid env) (new_message env s data))) |}],
     Returned tt).
Proof.
  intros Hok Hp Hv Hfresh. unfold sendMessage_try. cbv zeta.
  rewrite bind_run, Chat_findOne_run, Hp by done.
  unfold is_participant in Hp.
  destruct (chats (db w) !! sd_chatId data) as [c|]; [|discriminate].
  fold (new_message env s data).
  unfold Message_save, Chat_save, Message_findById_populate, io_to_emit.
  rewrite Hv. m_unfold. rewrite !Hok. simpl. rewrite Hfresh. simpl.
  rewrite lookup_insert_eq. reflexivity.
Qed.

Lemma on_sendMessage_success env s data w :
  fault_free env →
  is_participant (userId s) (sd_chatId data) (db w) = true →
  Message_validate (new_message env s data) = true →
  messages (db w) !! oid env = None →
  run_handler (on_sendMessage env s data) w =
    (after_send env s data w,
     [{| recipients := room (sd_chatId data) w;
         frame := newMessage
           (Some (populate (db w) (oid env) (new_message env s data))) |}]).
Proof.
  intros. unfold run_handler, on_sendMessage, try_catch.
  by rewrite try_success.
Qed.

Lemma on_sendMessage_not_participant env s data w :
  is_participant (userId s) (sd_chatId data) (db w) = false →
  run_handler (on_sendMessage env s data) w =
    (w, [to_sender s (if throws env ChatFindOne
                      then "Failed to send message" else "Chat not found")]).
Proof.
  intros Hp. unfold run_handler, on_sendMessage, try_catch.
  destruct (throws env ChatFindOne) eqn:Ht.
  - by rewrite try_lookup_throws.
  - by rewrite try_not_participant.
Qed.

Ltac by_compute :=
  first [ vm_compute; reflexivity
        | match goal with
          | |- ?P => apply (bool_decide_eq_true_1 P); vm_compute; reflexivity
          end ].

(** C3, as stated, fails: Carol, who is not in chat "c1", sends "hi" to it
    while the membership lookup rejects. The frame she gets is the one of
    the [catch] block, "Failed to send message", not "Chat not found". *)
Lemma lookup_rejected_send :
  is_participant "C" "c1" (db server_guest) = false ∧
  sockets server_guest !! "s4" = Some guest ∧
  step lookup_down (FromClient "s4" (SendMessage hi)) server_guest
    = (server_guest, [to_sender guest "Failed to send message"]) ∧
  ¬ answered_NotFound guest
      (step lookup_down (FromClient "s4" (SendMessage hi)) server_guest).2.
Proof.
  assert (step lookup_down (FromClient "s4" (SendMessage hi)) server_guest
    = (server_guest, [to_sender guest "Failed to send message"])) as Hstep.
  { rewrite (step_frame _ _ guest) by by_compute. cbn [dispatch].
    by rewrite on_sendMessage_not_participant by by_compute. }
  split; [reflexivity|]. split; [by_compute|]. split; [exact Hstep|].
  unfold answered_NotFound. rewrite Hstep. cbn. intros [=].
Qed.

(** C3, amended: a send request by an identity that is not a participant
    of the conversation leaves the state as it was (no message stored, the
    chat untouched, nothing broadcast) and is answered by exactly one error
    frame, addressed to the sending socket only: "Chat not found" when the
    membership lookup completes, "Failed to send message" when the lookup
    itself rejects. *)
Theorem send_by_non_participant env w from s data :
  sockets w !! from = Some s →
  from ∈ listening w →
  is_participant (userId s) (sd_chatId data) (db w) = false →
  step env (FromClient from (SendMessage data)) w =
    (w, [to_sender s (if throws env ChatFindOne
                      then "Failed to send message" else "Chat not found")]).
Proof.
  intros Hs Hl Hnp. rewrite (step_frame _ _ s) by done. cbn [dispatch].
  by apply on_sendMessage_not_participant.
Qed.

Lemma send_by_non_participant_witness :
  step (at_time 10 "m1") (FromClient "s4" (SendMessage hi)) server_guest
    = (server_guest, [to_sender guest "Chat not found"]) ∧
  step lookup_down (FromClient "s4" (SendMessage hi)) server_guest
    = (server_guest, [to_sender guest "Failed to send message"]).
Proof.
  split.
  - apply (send_by_non_participant (at_time 10 "m1") server_guest "s4" guest hi);
      by_compute.
  - apply (send_by_non_participant lookup_down server_guest "s4" guest hi);
      by_compute.
Defined.

Lemma on_sendMessage_invalid env s data w :
  throws env ChatFindOne = false →
  is_participant (userId s) (sd_chatId data) (db w) = true →
  invalid data →
  run_handler (on_sendMessage env s data) w =
    (w, [to_sender s "Failed to send message"]).
Proof.
  intros Ht Hp Hinv. unfold run_handler, on_sendMessage, try_catch.
  by rewrite try_invalid by eauto using invalid_not_validated.
Qed.

(** C4, as stated, fails: Carol, who is not in chat "c1", sends an empty
    content to it. The request is invalid, and the handler answers
    "Chat not found" after the membership lookup: its [try] block returns
    without having validated anything. *)
Lemma invalid_send_by_non_participant :
  invalid empty_send ∧
  sockets server_guest !! "s4" = Some guest ∧
  step (at_time 10 "m1") (FromClient "s4" (SendMessage empty_send)) server_guest
    = (server_guest, [to_sender guest "Chat not found"]) ∧
  ¬ rejected_with_ValidationError (at_time 10 "m1") guest empty_send server_guest.
Proof.
  split; [by left|]. split; [by_compute|]. split.
  - rewrite (step_frame _ _ guest) by by_compute. cbn [dispatch].
    by rewrite on_sendMessage_not_participant by by_compute.
  - unfold rejected_with_ValidationError.
    by rewrite try_not_participant by by_compute.
Qed.

(** C4, amended: a send request with an empty content, a content longer
    than 1000 characters or an unrecognized type leaves the state as it was
    (nothing stored, nothing broadcast) and is answered by one error frame
    to the sending socket only. When the membership lookup rejects, the
    [try] block ends in that storage error, reported as "Failed to send
    message". When the lookup completes and the sender is a participant,
    the [try] block ends in a validation error, raised by the save and
    reported as "Failed to send message". When the lookup completes and
    the sender is not a participant, the answer is "Chat not found": the
    membership lookup comes before the validation. *)
Theorem send_invalid env w from s data :
  sockets w !! from = Some s →
  from ∈ listening w →
  invalid data →
  (step env (FromClient from (SendMessage data)) w).1 = w ∧
  (∃ msg, (step env (FromClient from (SendMessage data)) w).2 = [to_sender s msg]) ∧
  (throws env ChatFindOne = true →
   (sendMessage_try env s data w []).2 = Thrown (StorageRejected ChatFindOne) ∧
   (step env (FromClient from (SendMessage data)) w).2 =
     [to_sender s "Failed to send message"]) ∧
  (throws env ChatFindOne = false →
   is_participant (userId s) (sd_chatId data) (db w) = true →
   rejected_with_ValidationError env s data w ∧
   (step env (FromClient from (SendMessage data)) w).2 =
     [to_sender s "Failed to send message"]) ∧
  (throws env ChatFindOne = false →
   is_participant (userId s) (sd_chatId data) (db w) = false →
   (step env (FromClient from (SendMessage data)) w).2 =
     [to_sender s "Chat not found"]).
Proof.
  intros Hs Hl Hinv. rewrite (step_frame _ _ s) by done. cbn [dispatch].
  destruct (throws env ChatFindOne) eqn:Ht.
  - unfold run_handler, on_sendMessage, try_catch.
    rewrite try_lookup_throws by done. cbn.
    split; [done|]. split; [by eexists|]. split; [done|]. split; intros; discriminate.
  - destruct (is_participant (userId s) (sd_chatId data) (db w)) eqn:Hp.
    + rewrite on_sendMessage_invalid by done. cbn [fst snd].
      split; [done|]. split; [by eexists|]. split; [intros; discriminate|].
      split; [|intros; discriminate].
      intros _ _. split; [|done].
      unfold rejected_with_ValidationError.
      by rewrite try_invalid by eauto using invalid_not_validated.
    + rewrite on_sendMessage_not_participant by done. rewrite Ht. cbn [fst snd].
      split; [done|]. split; [by eexists|]. split; [intros; discriminate|].
      split; [intros; discriminate|done].
Qed.

Lemma send_invalid_witness :
  (step (at_time 10 "m1") (FromClient "s1" (SendMessage empty_send)) server_guest).1
    = server_guest ∧
  rejected_with_ValidationError (at_time 10 "m1") phone empty_send server_guest ∧
  (step (at_time 10 "m1") (FromClient "s1" (SendMessage empty_send)) server_guest).2
    = [to_sender phone "Failed to send message"] ∧
  (sendMessage_try lookup_down phone empty_send server_guest []).2
    = Thrown (StorageRejected ChatFindOne).
Proof.
  destruct (send_invalid (at_time 10 "m1") server_guest "s1" phone empty_send)
    as (H1 & _ & _ & H2 & _); [by_compute | by_compute | by left |].
  destruct (send_invalid lookup_down server_guest "s1" phone empty_send)
    as (_ & _ & H3 & _); [by_compute | by_compute | by left |].
  split; [exact H1|]. destruct H2 as [H2 H2']; [by_compute | by_compute |].
  split; [exact H2|]. split; [exact H2'|]. apply H3. reflexivity.
Defined.

(** C7: when a send goes through (the sender is a participant, the message
    passes the schema, its id is new, no storage call rejects), the message
    is stored under its id with the socket's user as sender and with
    [readBy] holding one entry, that user at the time of creation; the
    broadcast frame carries the same [readBy]. *)
Theorem sent_message_readBy env w from s data :
  sockets w !! from = Some s →
  from ∈ listening w →
  fault_free env →
  is_participant (userId s) (sd_chatId data) (db w) = true →
  Message_validate (new_message env s data) = true →
  messages (db w) !! oid env = None →
  ∃ m,
    messages (db (step env (FromClient from (SendMessage data)) w).1) !! oid env
      = Some m ∧
    sender m = userId s ∧
    readBy m = [{| re_user := userId s; readAt := now env 0 |}] ∧
    ∀ e, e ∈ (step env (FromClient from (SendMessage data)) w).2 →
      ∃ pm, frame e = newMessage (Some pm) ∧ pm_readBy pm = readBy m.
Proof.
  intros Hs Hl Hok Hp Hv Hfresh. rewrite (step_frame _ _ s) by done. cbn [dispatch].
  rewrite on_sendMessage_success by done. cbn [fst snd].
  exists (new_message env s data). split; [|split; [done|split; [done|]]].
  - unfold after_send. cbn. apply lookup_insert_eq.
  - intros e He. apply list_elem_of_singleton in He as ->. by eexists.
Qed.

Lemma sent_message_readBy_witness :
  ∃ m,
    messages (db (step (at_time 10 "m1") (FromClient "s1" (SendMessage hi))
                    server_guest).1) !! "m1" = Some m ∧
    sender m = "A" ∧
    readBy m = [{| re_user := "A"; readAt := 10 |}] ∧
    ∀ e, e ∈ (step (at_time 10 "m1") (FromClient "s1" (SendMessage hi)) server_guest).2 →
      ∃ pm, frame e = newMessage (Some pm) ∧ pm_readBy pm = readBy m.
Proof.
  apply (sent_message_readBy (at_time 10 "m1") server_guest "s1" phone hi);
    first [ by_compute | intros c; reflexivity ].
Defined.

(** C8: when a send goes through, one [newMessage] frame is emitted, with
    the sender reference replaced by the sender's id, name and avatar, and
    it is addressed to the sockets in the room of the conversation: every
    socket in the room receives it, the sending socket and the other
    sockets of the sender among them, and no socket outside the room
    does. *)
Theorem newMessage_reaches_room env w from s data u :
  sockets w !! from = Some s →
  from ∈ listening w →
  fault_free env →
  is_participant (userId s) (sd_chatId data) (db w) = true →
  Message_validate (new_message env s data) = true →
  messages (db w) !! oid env = None →
  users (db w) !! userId s = Some u →
  ∃ pm,
    pm_sender pm = Some {| si_id := userId s; si_username := username u;
                           si_avatar := avatar u |} ∧
    pm_content pm = sd_content data ∧
    (step env (FromClient from (SendMessage data)) w).2 =
      [{| recipients := room (sd_chatId data) w; frame := newMessage (Some pm) |}] ∧
    (∀ o, o ∈ room (sd_chatId data) w →
       delivered o (step env (FromClient from (SendMessage data)) w).2
         = [newMessage (Some pm)]) ∧
    (∀ o s', sockets w !! o = Some s' → userId s' = userId s →
       o ∈ room (sd_chatId data) w →
       delivered o (step env (FromClient from (SendMessage data)) w).2
         = [newMessage (Some pm)]) ∧
    (∀ o, o ∉ room (sd_chatId data) w →
       delivered o (step env (FromClient from (SendMessage data)) w).2 = []).
Proof.
  intros Hs Hl Hok Hp Hv Hfresh Hu. rewrite (step_frame _ _ s) by done. cbn [dispatch].
  rewrite on_sendMessage_success by done. cbn [fst snd].
  exists (populate (db w) (oid env) (new_message env s data)).
  split; [by unfold populate; cbn; rewrite Hu|].
  split; [done|]. split; [done|].
  split; [|split].
  - intros o Ho. by apply delivered_one_in.
  - intros o s' _ _ Ho. by apply delivered_one_in.
  - intros o Ho. by apply delivered_one_out.
Qed.

Lemma newMessage_reaches_room_witness :
  ∃ pm,
    pm_sender pm = Some {| si_id := "A"; si_username := "alice"; si_avatar := "a.png" |} ∧
    delivered "s1" (step (at_time 10 "m1") (FromClient "s1" (SendMessage hi))
                      server_guest).2 = [newMessage (Some pm)] ∧
    delivered "s2" (step (at_time 10 "m1") (FromClient "s1" (SendMessage hi))
                      server_guest).2 = [newMessage (Some pm)] ∧
    delivered "s3" (step (at_time 10 "m1") (FromClient "s1" (SendMessage hi))
                      server_guest).2 = [newMessage (Some pm)] ∧
    delivered "s4" (step (at_time 10 "m1") (FromClient "s1" (SendMessage hi))
                      server_guest).2 = [].
Proof.
  destruct (newMessage_reaches_room (at_time 10 "m1") server_guest "s1" phone hi
              {| username := "alice"; avatar := "a.png"; isOnline := true;
                 lastSeen := 3 |})
    as (pm & Hsender & _ & _ & Hin & _ & Hout);
    try first [ by_compute | intros c; reflexivity ].
  exists pm. split; [exact Hsender|].
  split; [apply Hin; by_compute|].
  split; [apply Hin; by_compute|].
  split; [apply Hin; by_compute|].
  apply Hout. by_compute.
Defined.

(** ** Typing indicators *)

Lemma on_typing_run env from s data w :
  sockets w !! from = Some s →
  from ∈ listening w →
  step env (FromClient from (Typing data)) w =
    (w, [{| recipients := room (td_chatId data) w ∖ {[ sid s ]};
            frame := userTyping (userId s) (username (user s)) (td_isTyping data) |}]).
Proof. intros Hs Hl. by rewrite (step_frame _ _ s) by done. Qed.

Lemma run_idle (idle : list (Env * Z)) w :
  run ((λ p, (p.1, Idle p.2)) <$> idle) w = (w, []).
Proof. induction idle as [|[env ms] idle IH]; [done|]. cbn. cbn in IH. by rewrite IH. Qed.

(** C5, as stated, fails: Alice's phone sends [isTyping = true] and a
    minute passes with no further frame. Bob's socket, in the room, has
    received the positive state and nothing else: the server emits no
    negative state on expiry. *)
Lemma no_expiry_on_server :
  delivered "s3" (run typing_then_silence server_all).2
    = [userTyping "A" "alice" true] ∧
  ¬ negative_state_broadcast_once "A" "s3" (run typing_then_silence server_all).2.
Proof.
  assert (delivered "s3" (run typing_then_silence server_all).2
            = [userTyping "A" "alice" true]) as Hd by by_compute.
  split; [exact Hd|].
  unfold negative_state_broadcast_once. rewrite Hd. vm_compute. discriminate.
Qed.

(** C5, amended: a typing frame is relayed as it is, once, to the sockets
    in the room other than the sending one, and the server keeps no typing
    state and sets no timer: however long it then stays idle, its state is
    unchanged and nothing more is emitted. So an explicit
    [isTyping = false] reaches every other socket in the room exactly once,
    and no negative state is emitted on expiry. *)
Theorem typing_relayed_once env w from s data (idle : list (Env * Z)) :
  sockets w !! from = Some s →
  from ∈ listening w →
  run ((env, FromClient from (Typing data)) :: ((λ p, (p.1, Idle p.2)) <$> idle)) w =
    (w, [{| recipients := room (td_chatId data) w ∖ {[ sid s ]};
            frame := userTyping (userId s) (username (user s)) (td_isTyping data) |}]) ∧
  (td_isTyping data = false →
   ∀ o, o ∈ room (td_chatId data) w → o ≠ sid s →
     count (is_userTyping (userId s) false)
       (delivered o
          (run ((env, FromClient from (Typing data))
                  :: ((λ p, (p.1, Idle p.2)) <$> idle)) w).2) = 1).
Proof.
  intros Hs Hl.
  assert (run ((env, FromClient from (Typing data))
                 :: ((λ p, (p.1, Idle p.2)) <$> idle)) w =
    (w, [{| recipients := room (td_chatId data) w ∖ {[ sid s ]};
            frame := userTyping (userId s) (username (user s)) (td_isTyping data) |}]))
    as Hrun.
  { rewrite run_cons, (on_typing_run _ _ s) by done. cbn [fst snd].
    by rewrite run_idle. }
  split; [exact Hrun|].
  intros Hfalse o Ho Hne. rewrite Hrun. cbn [snd].
  rewrite delivered_one_in by set_solver.
  rewrite count_cons, Hfalse. cbn. by rewrite bool_decide_true.
Qed.

Lemma typing_relayed_once_witness :
  run ((at_time 10 "m1", FromClient "s1" (typing_c1 false))
         :: ((λ p, (p.1, Idle p.2)) <$> [(at_time 60010 "m1", 60000%Z)])) server_all =
    (server_all,
     [{| recipients := room "c1" server_all ∖ {[ "s1" ]};
         frame := userTyping "A" "alice" false |}]) ∧
  count (is_userTyping "A" false)
    (delivered "s3"
       (run ((at_time 10 "m1", FromClient "s1" (typing_c1 false))
               :: ((λ p, (p.1, Idle p.2)) <$> [(at_time 60010 "m1", 60000%Z)]))
          server_all).2) = 1.
Proof.
  destruct (typing_relayed_once (at_time 10 "m1") server_all "s1" phone
              {| td_chatId := "c1"; td_isTyping := false |}
              [(at_time 60010 "m1", 60000%Z)])
    as [Hrun Hcount]; [by_compute | by_compute |].
  split; [exact Hrun|].
  apply Hcount; [reflexivity | by_compute | discriminate].
Defined.

(** C6, as stated, fails: Alice is connected from her phone and from her
    laptop, both in the room of chat "c1". A typing frame from the phone is
    delivered to the laptop. *)
Lemma typing_reaches_other_device :
  sockets server_all !! "s2" = Some laptop ∧
  userId laptop = userId phone ∧
  delivered "s2" (step (at_time 10 "m1") (FromClient "s1" (typing_c1 true)) server_all).2
    = [userTyping "A" "alice" true] ∧
  ¬ no_self_notification server_all phone
      (step (at_time 10 "m1") (FromClient "s1" (typing_c1 true)) server_all).2.
Proof.
  assert (sockets server_all !! "s2" = Some laptop) as Hs by by_compute.
  assert (delivered "s2"
            (step (at_time 10 "m1") (FromClient "s1" (typing_c1 true)) server_all).2
          = [userTyping "A" "alice" true]) as Hd by by_compute.
  split; [exact Hs|]. split; [reflexivity|]. split; [exact Hd|].
  intros Hno. specialize (Hno "s2" laptop Hs eq_refl).
  rewrite Hd in Hno. discriminate Hno.
Qed.

(** C6, amended: the [userTyping] frame is delivered to the sockets in the
    room other than the one that sent the typing frame. The sending socket
    does not receive it; every other socket in the room does, the other
    connections of the typing user included; sockets outside the room do
    not. *)
Theorem typing_excludes_sending_socket env w from s data :
  sockets w !! from = Some s →
  from ∈ listening w →
  delivered (sid s) (step env (FromClient from (Typing data)) w).2 = [] ∧
  (∀ o, o ∈ room (td_chatId data) w → o ≠ sid s →
     delivered o (step env (FromClient from (Typing data)) w).2 =
       [userTyping (userId s) (username (user s)) (td_isTyping data)]) ∧
  (∀ o, o ∉ room (td_chatId data) w →
     delivered o (step env (FromClient from (Typing data)) w).2 = []).
Proof.
  intros Hs Hl. rewrite (on_typing_run _ _ s) by done. cbn [snd].
  split; [|split].
  - apply delivered_one_out. set_solver.
  - intros o Ho Hne. apply delivered_one_in. set_solver.
  - intros o Ho. apply delivered_one_out. set_solver.
Qed.

Lemma typing_excludes_sending_socket_witness :
  delivered "s1" (step (at_time 10 "m1") (FromClient "s1" (typing_c1 true)) server_all).2
    = [] ∧
  delivered "s3" (step (at_time 10 "m1") (FromClient "s1" (typing_c1 true)) server_all).2
    = [userTyping "A" "alice" true].
Proof.
  destruct (typing_excludes_sending_socket (at_time 10 "m1") server_all "s1" phone
              {| td_chatId := "c1"; td_isTyping := true |})
    as (Hself & Hin & _); [by_compute | by_compute |].
  split; [exact Hself|].
  apply Hin; [by_compute | discriminate].
Defined.

(** ** Rooms *)

Lemma room_join s r w : room r (join s r w) = {[ s ]} ∪ room r w.
Proof. unfold room, join. cbn. by rewrite lookup_insert_eq. Qed.

Lemma room_join_other s r r' w : r ≠ r' → room r' (join s r w) = room r' w.
Proof. intros Hne. unfold room, join. cbn. by rewrite lookup_insert_ne. Qed.

Lemma room_join_mono s s' r r' w : s' ∈ room r' w → s' ∈ room r' (join s r w).
Proof.
  intros H. destruct (decide (r = r')) as [->|Hne].
  - rewrite room_join. set_solver.
  - by rewrite room_join_other.
Qed.

Lemma room_foldl_join s (l : list string) c w :
  c ∈ l ∨ s ∈ room c w →
  s ∈ room c (foldl (λ w chatId, join s chatId w) w l).
Proof.
  revert w. induction l as [|c' l IH]; intros w [Hc | Hs]; cbn.
  - by apply elem_of_nil in Hc.
  - done.
  - apply IH. apply elem_of_cons in Hc as [-> | Hc]; [right | by left].
    rewrite room_join. set_solver.
  - apply IH. right. by apply room_join_mono.
Qed.

(** The connection handler joins the socket to the room of every chat its
    user participates in. *)
Lemma connection_auto_join env s c w :
  fault_free env →
  is_participant (userId s) c (db w) = true →
  sid s ∈ room c (step env (Connection s) w).1.
Proof.
  intros Hok Hp. unfold step, run_handler, on_connection, User_findByIdAndUpdate,
    Chat_find, socket_broadcast_emit.
  m_unfold. rewrite !Hok. cbn.
  unfold room at 1. cbn. fold (room c).
  match goal with |- context [foldl ?f ?w0 ?l] =>
    change (sid s ∈ room c (foldl f w0 l)) end.
  apply room_foldl_join. left.
  unfold is_participant in Hp.
  destruct (chats (db w) !! c) as [cd|] eqn:Hc; [|discriminate].
  apply bool_decide_eq_true in Hp.
  apply list_elem_of_fmap. exists (c, cd). split; [done|].
  apply elem_of_map_to_list. by apply map_lookup_filter_Some.
Qed.

(** C9: a joinChat frame puts the socket in the room it names, whoever its
    user is: no hypothesis relates the user to the participants of a chat.
    From then on the socket is among the recipients of what is sent to the
    room: it receives the [newMessage] of every send to that room that goes
    through. *)
Theorem joinChat_unconditional env w from s chatId :
  sockets w !! from = Some s →
  from ∈ listening w →
  (step env (FromClient from (JoinChat chatId)) w).2 = [] ∧
  room chatId (step env (FromClient from (JoinChat chatId)) w).1
    = {[ sid s ]} ∪ room chatId w ∧
  db (step env (FromClient from (JoinChat chatId)) w).1 = db w ∧
  ∀ env2 from2 s2 data2,
    sockets (step env (FromClient from (JoinChat chatId)) w).1 !! from2 = Some s2 →
    from2 ∈ listening (step env (FromClient from (JoinChat chatId)) w).1 →
    fault_free env2 →
    sd_chatId data2 = chatId →
    is_participant (userId s2) chatId (db w) = true →
    Message_validate (new_message env2 s2 data2) = true →
    messages (db w) !! oid env2 = None →
    delivered (sid s)
      (step env2 (FromClient from2 (SendMessage data2))
         (step env (FromClient from (JoinChat chatId)) w).1).2
      = [newMessage (Some (populate (db w) (oid env2) (new_message env2 s2 data2)))].
Proof.
  intros Hs Hl. rewrite (step_frame _ _ s) by done.
  cbn [dispatch on_joinChat socket_join run_handler modify fst snd].
  split; [done|]. split; [apply room_join|]. split; [done|].
  intros env2 from2 s2 data2 Hs2 Hl2 Hok <- Hp Hv Hfresh.
  rewrite (step_frame _ _ s2) by done. cbn [dispatch].
  rewrite on_sendMessage_success by done. cbn [snd].
  apply delivered_one_in. rewrite room_join. set_solver.
Qed.

Lemma joinChat_unconditional_witness :
  is_participant "C" "c1" (db server_guest) = false ∧
  "s4" ∈ room "c1" (step (at_time 9 "m0") (FromClient "s4" (JoinChat "c1"))
                      server_guest).1 ∧
  delivered "s4"
    (step (at_time 10 "m1") (FromClient "s1" (SendMessage hi))
       (step (at_time 9 "m0") (FromClient "s4" (JoinChat "c1")) server_guest).1).2
    = [newMessage (Some (populate (db server_guest) "m1"
                           (new_message (at_time 10 "m1") phone hi)))].
Proof.
  destruct (joinChat_unconditional (at_time 9 "m0") server_guest "s4" guest "c1")
    as (_ & Hroom & _ & Hrecv); [by_compute | by_compute |].
  split; [reflexivity|]. split.
  - rewrite Hroom. cbn. set_solver.
  - apply (Hrecv (at_time 10 "m1") "s1" phone hi);
      first [ by_compute | intros c; reflexivity ].
Defined.

(** ** Read receipts *)

Lemma alter_absent {A} (f : A → A) (m : gmap string A) i :
  m !! i = None → alter f i m = m.
Proof.
  intros H. apply map_eq. intros j. destruct (decide (i = j)) as [<-|Hne].
  - by rewrite lookup_alter_eq, H.
  - by rewrite lookup_alter_ne.
Qed.

Lemma on_markAsRead_run env s data w :
  throws env MessageUpdate = false →
  run_handler (on_markAsRead env s data) w =
    (set_db (set_messages (alter (λ m,
       {| chat := chat m; sender := sender m; content := content m;
          messageType := messageType m;
          readBy := addToSet {| re_user := userId s; readAt := now env 0 |} (readBy m);
          createdAt := createdAt m |}) (rd_messageId data))) w,
     [{| recipients := room (rd_chatId data) w ∖ {[ sid s ]};
         frame := messageRead (rd_messageId data) (userId s) (now env 1) |}]).
Proof.
  intros Hok. unfold run_handler, on_markAsRead, Message_findByIdAndUpdate,
    socket_to_emit.
  m_unfold. by rewrite Hok.
Qed.

(** C10: when the update of the message does not throw, the handler emits
    one [messageRead] frame, stamped with the time read after the update,
    to the sockets in the named room other than the invoking one. Nothing
    is asked of the message: the frame is emitted when no message has the
    given id (the stored data is then unchanged), and the chat of the
    message is never compared with the given chat id. *)
Theorem markAsRead_always_broadcasts env w from s data :
  sockets w !! from = Some s →
  from ∈ listening w →
  throws env MessageUpdate = false →
  (step env (FromClient from (MarkAsRead data)) w).2 =
    [{| recipients := room (rd_chatId data) w ∖ {[ sid s ]};
        frame := messageRead (rd_messageId data) (userId s) (now env 1) |}] ∧
  (messages (db w) !! rd_messageId data = None →
   (step env (FromClient from (MarkAsRead data)) w).1 = w).
Proof.
  intros Hs Hl Hok. rewrite (step_frame _ _ s) by done. cbn [dispatch].
  rewrite on_markAsRead_run by done. cbn [fst snd]. split; [done|].
  intros Hnone. destruct w as [au ss ls rs [us cs ms]]. cbn in *.
  unfold set_db, set_messages. cbn. by rewrite alter_absent.
Qed.

Lemma markAsRead_always_broadcasts_witness :
  messages (db server_guest) !! "nope" = None ∧
  step (at_time 20 "m2")
    (FromClient "s4" (MarkAsRead {| rd_messageId := "nope"; rd_chatId := "c1" |}))
    server_guest
  = (server_guest,
     [{| recipients := room "c1" server_guest ∖ {[ "s4" ]};
         frame := messageRead "nope" "C" 20 |}]).
Proof.
  destruct (markAsRead_always_broadcasts (at_time 20 "m2") server_guest "s4" guest
              {| rd_messageId := "nope"; rd_chatId := "c1" |})
    as [Hout Hsame]; [by_compute | by_compute | reflexivity |].
  split; [by_compute|].
  specialize (Hsame ltac:(by_compute)).
  destruct (step _ _ _) as [w' out]. cbn in *. by rewrite Hout, Hsame.
Defined.

(** [$addToSet] leaves the array alone only when the very same entry, user
    and time, is already in it. *)
Lemma addToSet_same e l : e ∈ l → addToSet e l = l.
Proof. intros H. unfold addToSet. by rewrite bool_decide_true. Qed.

Lemma addToSet_new e l : e ∉ l → addToSet e l = l ++ [e].
Proof. intros H. unfold addToSet. by rewrite bool_decide_false. Qed.

(** Marking a message read a second time at a later time adds a second
    entry for the same user. *)
Lemma addToSet_twice u t1 t2 l :
  t1 ≠ t2 →
  {| re_user := u; readAt := t2 |} ∉ l →
  entries_of u
    (addToSet {| re_user := u; readAt := t2 |}
       (addToSet {| re_user := u; readAt := t1 |} l))
  = entries_of u (addToSet {| re_user := u; readAt := t1 |} l)
      ++ [{| re_user := u; readAt := t2 |}].
Proof.
  intros Hne Hnew. unfold entries_of.
  rewrite (addToSet_new {| re_user := u; readAt := t2 |}).
  - rewrite filter_app. f_equal. by rewrite filter_cons_True.
  - unfold addToSet. destruct (bool_decide _); [done|].
    rewrite elem_of_app, list_elem_of_singleton. intros [?|?]; [done|congruence].
Qed.

(** C2 on the code: Alice has sent "m1"; Bob marks it read at time 20 and
    again at time 30. The second call changes the stored message, whose
    [readBy] then holds two entries for Bob, and a second [messageRead]
    frame is emitted. *)
Theorem markAsRead_twice_two_entries :
  readBy <$> messages (db server_hi) !! "m1"
    = Some [ {| re_user := "A"; readAt := 10 |} ] ∧
  readBy <$> messages (db read_once.1) !! "m1"
    = Some [ {| re_user := "A"; readAt := 10 |}; {| re_user := "B"; readAt := 20 |} ] ∧
  readBy <$> messages (db read_twice.1) !! "m1"
    = Some [ {| re_user := "A"; readAt := 10 |}; {| re_user := "B"; readAt := 20 |};
             {| re_user := "B"; readAt := 30 |} ] ∧
  (length ∘ entries_of "B" ∘ readBy) <$> messages (db read_twice.1) !! "m1" = Some 2 ∧
  read_twice.1 ≠ read_once.1 ∧
  delivered "s1" read_twice.2 = [messageRead "m1" "B" 30].
Proof.
  assert (readBy <$> messages (db read_once.1) !! "m1"
    = Some [ {| re_user := "A"; readAt := 10 |}; {| re_user := "B"; readAt := 20 |} ])
    as H1 by by_compute.
  assert (readBy <$> messages (db read_twice.1) !! "m1"
    = Some [ {| re_user := "A"; readAt := 10 |}; {| re_user := "B"; readAt := 20 |};
             {| re_user := "B"; readAt := 30 |} ]) as H2 by by_compute.
  split; [by_compute|]. split; [exact H1|]. split; [exact H2|].
  split; [by_compute|]. split; [|by_compute].
  intros Heq. rewrite Heq, H1 in H2. discriminate H2.
Qed.

(** ** The [activeUsers] map *)
Lemma JsMap_set_keys {V} k (v : V) m :
  (JsMap.set k v m).*1 = if bool_decide (k ∈ m.*1) then m.*1 else m.*1 ++ [k].
Proof.
  induction m as [|[k' v'] m IH]; cbn; [done|].
  destruct (decide (k' = k)) as [->|Hne]; cbn.
  - rewrite bool_decide_true; [done | set_solver].
  - rewrite IH. destruct (bool_decide (k ∈ m.*1)) eqn:E.
    + apply bool_decide_eq_true in E. rewrite bool_decide_true; [done | set_solver].
    + apply bool_decide_eq_false in E. rewrite bool_decide_false; [done|].
      rewrite elem_of_cons. naive_solver.
Qed.

Lemma JsMap_set_NoDup {V} k (v : V) m : NoDup m.*1 → NoDup (JsMap.set k v m).*1.
Proof.
  intros H. rewrite JsMap_set_keys. case_bool_decide as Hk; [done|].
  apply NoDup_app. split; [done|]. split; [|apply NoDup_singleton].
  intros x Hx Hx'. apply list_elem_of_singleton in Hx' as ->. done.
Qed.

Lemma JsMap_set_elem {V} k (v : V) m : (k, v) ∈ JsMap.set k v m.
Proof.
  induction m as [|[k' v'] m IH]; cbn; [set_solver|].
  destruct (decide (k' = k)); set_solver.
Qed.

Lemma JsMap_set_other {V} k (v : V) m k' v' :
  k' ≠ k → (k', v') ∈ JsMap.set k v m ↔ (k', v') ∈ m.
Proof.
  intros Hne. induction m as [|[k0 v0] m IH]; cbn.
  - rewrite list_elem_of_singleton. split; [|by intros ?%elem_of_nil]. congruence.
  - destruct (decide (k0 = k)) as [->|Hk]; rewrite !elem_of_cons; [|rewrite IH]; naive_solver.
Qed.

Lemma JsMap_delete_keys {V} k (m : list (string * V)) x :
  x ∈ (JsMap.delete k m).*1 ↔ x ∈ m.*1 ∧ x ≠ k.
Proof.
  unfold JsMap.delete. rewrite !list_elem_of_fmap. split.
  - intros ([k' v] & -> & [H1 H2]%list_elem_of_filter). split; [|done]. by exists (k', v).
  - intros [([k' v] & -> & H) Hne]. exists (k', v). split; [done|].
    by apply list_elem_of_filter.
Qed.

Lemma JsMap_delete_NoDup {V} k (m : list (string * V)) :
  NoDup m.*1 → NoDup (JsMap.delete k m).*1.
Proof.
  unfold JsMap.delete. induction m as [|[k' v] m IH]; [done|].
  rewrite fmap_cons. intros [Hk Hm]%NoDup_cons. cbn [fst] in Hk.
  destruct (decide (k' ≠ k)) as [Hne|Heq].
  - rewrite filter_cons_True by done. rewrite fmap_cons. apply NoDup_cons. split; [|by apply IH].
    intros Hin. apply Hk. pose proof (JsMap_delete_keys k m k') as Hd.
    unfold JsMap.delete in Hd. by apply Hd in Hin as [? _].
  - rewrite filter_cons_False by done. by apply IH.
Qed.

(** ** Consistency of the server state *)
Lemma keeps_unchanged S {A} (c : M A) :
  (∀ w out, (c w out).1 = (w, out)) → keeps S c.
Proof. intros H w out Hc HS Ha. by rewrite H. Qed.

Lemma keeps_bind S {A B} (c : M A) (k : A → M B) :
  keeps S c → (∀ a, keeps S (k a)) → keeps S (c ≫= k).
Proof.
  intros Hc Hk w out Hw HS Ha. rewrite bind_run.
  destruct (Hc w out Hw HS Ha) as (H1 & H2 & H3).
  destruct (c w out) as [[w1 out1] [a|e]]; cbn in *; [|done].
  destruct (Hk a w1 out1 H1) as (H4 & H5 & H6); [by rewrite H2 | done |].
  by rewrite H5.
Qed.

Lemma keeps_try_catch S {A} (c : M A) (h : Exn → M A) :
  keeps S c → (∀ e, keeps S (h e)) → keeps S (try_catch c h).
Proof.
  intros Hc Hh w out Hw HS Ha. unfold try_catch.
  destruct (Hc w out Hw HS Ha) as (H1 & H2 & H3).
  destruct (c w out) as [[w1 out1] [a|e]]; cbn in *; [done|].
  destruct (Hh e w1 out1 H1) as (H4 & H5 & H6); [by rewrite H2 | done |].
  by rewrite H5.
Qed.

Lemma keeps_ret S {A} (a : A) : keeps S (mret a).
Proof. by apply keeps_unchanged. Qed.

Lemma keeps_throw S {A} e : keeps S (@throw A e).
Proof. by apply keeps_unchanged. Qed.

Lemma keeps_storage S env c : keeps S (storage env c).
Proof. apply keeps_unchanged. intros. unfold storage. by destruct (throws env c). Qed.

Lemma keeps_modify S (f : Server → Server) :
  (∀ w, consistent w → S ⊆ dom (sockets w) →
        consistent (f w) ∧ sockets (f w) = sockets w) →
  keeps S (modify f).
Proof.
  intros Hf w out Hw HS Ha. cbn. destruct (Hf w Hw HS) as [H1 H2].
  split; [done|]. split; [done|]. intros e He. rewrite H2. by apply Ha.
Qed.

Lemma keeps_emit S (to : Server → gset string) (f : Server → Frame) :
  (∀ w, consistent w → S ⊆ dom (sockets w) → to w ⊆ dom (sockets w)) →
  keeps S (w ← get; emit (to w) (f w)).
Proof.
  intros Hto w out Hw HS Ha. cbn. split; [done|]. split; [done|].
  intros e [He | ->%list_elem_of_singleton]%elem_of_app; [by apply Ha|].
  cbn. by apply Hto.
Qed.

Lemma room_connected r w : consistent w → room r w ⊆ dom (sockets w).
Proof.
  intros (_ & Hr & _). unfold room.
  destruct (rooms w !! r) as [members|] eqn:E; cbn; [by eapply Hr | set_solver].
Qed.

Lemma keeps_socket_emit s f : keeps {[ sid s ]} (socket_emit s f).
Proof.
  intros w out Hw HS Ha. cbn. split; [done|]. split; [done|].
  intros e [He | ->%list_elem_of_singleton]%elem_of_app; [by apply Ha | done].
Qed.

Lemma keeps_socket_broadcast_emit S s f : keeps S (socket_broadcast_emit s f).
Proof. apply (keeps_emit S (λ w, dom (sockets w) ∖ {[ sid s ]}) (λ _, f)). set_solver. Qed.

Lemma keeps_io_to_emit S r f : keeps S (io_to_emit r f).
Proof.
  apply (keeps_emit S (λ w, room r w) (λ _, f)). intros w Hw _. by apply room_connected.
Qed.

Lemma keeps_socket_to_emit S s r f : keeps S (socket_to_emit s r f).
Proof.
  apply (keeps_emit S (λ w, room r w ∖ {[ sid s ]}) (λ _, f)).
  intros w Hw _. pose proof (room_connected r w Hw). set_solver.
Qed.

Lemma consistent_set_db f w : consistent w → consistent (set_db f w).
Proof. done. Qed.

Lemma keeps_set_db S f : keeps S (modify (set_db f)).
Proof. apply keeps_modify. done. Qed.

Lemma consistent_join s r w :
  consistent w → s ∈ dom (sockets w) → consistent (join s r w).
Proof.
  intros (H1 & H2 & H3 & H4) Hs. split; [done|]. split; [|done].
  intros r' members. unfold join. cbn.
  destruct (decide (r = r')) as [<-|Hne].
  - rewrite lookup_insert_eq. intros [= <-].
    destruct (rooms w !! r) as [m|] eqn:E; cbn; [|set_solver].
    specialize (H2 r m E). set_solver.
  - rewrite lookup_insert_ne by done. apply H2.
Qed.

Lemma consistent_leave s r w : consistent w → consistent (leave s r w).
Proof.
  intros (H1 & H2 & H3 & H4). split; [done|]. split; [|done].
  intros r' members. unfold leave. cbn.
  destruct (decide (r = r')) as [<-|Hne].
  - rewrite lookup_insert_eq. intros [= <-].
    destruct (rooms w !! r) as [m|] eqn:E; cbn; [|set_solver].
    specialize (H2 r m E). set_solver.
  - rewrite lookup_insert_ne by done. apply H2.
Qed.

Lemma consistent_foldl_join s (l : list string) w :
  consistent w → s ∈ dom (sockets w) →
  consistent (foldl (λ w chatId, join s chatId w) w l) ∧
  sockets (foldl (λ w chatId, join s chatId w) w l) = sockets w.
Proof.
  revert w. induction l as [|c l IH]; intros w Hw Hs; [done|]. cbn.
  destruct (IH (join s c w)) as [H1 H2]; [by apply consistent_join | done | done].
Qed.

Lemma keeps_on_connection env s : keeps {[ sid s ]} (on_connection env s).
Proof.
  unfold on_connection, User_findByIdAndUpdate, Chat_find.
  apply keeps_bind; [|intros _].
  { apply keeps_modify. intros w (H1 & H2 & H3 & H4) _. split; [|done].
    split; [done|]. split; [done|]. split; [done|]. by apply JsMap_set_NoDup. }
  apply keeps_bind; [|intros _].
  { apply keeps_bind; [apply keeps_storage | intros _; apply keeps_set_db]. }
  apply keeps_bind; [|intros userChats].
  { apply keeps_bind; [apply keeps_storage | intros _].
    by apply keeps_unchanged. }
  apply keeps_bind; [|intros _].
  { apply keeps_modify. intros w Hw HS. apply consistent_foldl_join; set_solver. }
  apply keeps_bind; [apply keeps_socket_broadcast_emit | intros _].
  apply keeps_modify. intros w (H1 & H2 & H3 & H4) HS. split; [|done].
  split; [done|]. split; [done|]. split; [cbn; set_solver | done].
Qed.

Lemma keeps_on_disconnect env s : keeps ∅ (on_disconnect env s).
Proof.
  unfold on_disconnect, User_findByIdAndUpdate.
  apply keeps_bind; [|intros _].
  { apply keeps_modify. intros w (H1 & H2 & H3 & H4) _. split; [|done].
    split; [done|]. split; [done|]. split; [done|]. by apply JsMap_delete_NoDup. }
  apply keeps_bind; [|intros _].
  { apply keeps_bind; [apply keeps_storage | intros _; apply keeps_set_db]. }
  apply keeps_socket_broadcast_emit.
Qed.

Lemma keeps_on_sendMessage env s data : keeps {[ sid s ]} (on_sendMessage env s data).
Proof.
  unfold on_sendMessage, sendMessage_try. cbv zeta.
  apply keeps_try_catch; [|intros _; apply keeps_socket_emit].
  apply keeps_bind; [|intros [c|]; [|apply keeps_socket_emit]].
  { unfold Chat_findOne. apply keeps_bind; [apply keeps_storage | intros _].
    by apply keeps_unchanged. }
  apply keeps_bind; [|intros _].
  { unfold Message_save. destruct (Message_validate _); [|apply keeps_throw].
    apply keeps_bind; [apply keeps_storage | intros _].
    apply keeps_bind; [by apply keeps_unchanged | intros w0].
    destruct (messages (db w0) !! oid env); [apply keeps_throw | apply keeps_set_db]. }
  apply keeps_bind; [|intros _].
  { unfold Chat_save. apply keeps_bind; [apply keeps_storage | intros _; apply keeps_set_db]. }
  apply keeps_bind; [|intros pm; apply keeps_io_to_emit].
  unfold Message_findById_populate.
  apply keeps_bind; [apply keeps_storage | intros _]. by apply keeps_unchanged.
Qed.

Lemma keeps_on_markAsRead env s data : keeps {[ sid s ]} (on_markAsRead env s data).
Proof.
  unfold on_markAsRead, Message_findByIdAndUpdate. cbv zeta.
  apply keeps_try_catch; [|intros _; apply keeps_ret].
  apply keeps_bind; [|intros _; apply keeps_socket_to_emit].
  apply keeps_bind; [apply keeps_storage | intros _; apply keeps_set_db].
Qed.

Lemma keeps_dispatch env s f : keeps {[ sid s ]} (dispatch env s f).
Proof.
  destruct f as [c|c|data|data|data|]; cbn [dispatch].
  - apply keeps_modify. intros w Hw HS. split; [|done]. apply consistent_join; set_solver.
  - apply keeps_modify. intros w Hw HS. split; [|done]. by apply consistent_leave.
  - apply keeps_on_sendMessage.
  - apply keeps_socket_to_emit.
  - apply keeps_on_markAsRead.
  - intros w out Hw HS Ha. cbn. split; [done|]. split; [done|].
    intros e [He | ->%list_elem_of_singleton]%elem_of_app; [by apply Ha | done].
Qed.

Lemma consistent_accept s w : consistent w → consistent (accept s w).
Proof.
  intros (H1 & H2 & H3 & H4). unfold accept.
  apply consistent_join; [|cbn; rewrite dom_insert_L; set_solver].
  split; [|split; [|split; [|done]]]; cbn.
  - intros k s'. destruct (decide (sid s = k)) as [<-|Hne].
    + rewrite lookup_insert_eq. by intros [= <-].
    + rewrite lookup_insert_ne by done. apply H1.
  - intros r m Hr. rewrite dom_insert_L. specialize (H2 r m Hr). set_solver.
  - rewrite dom_insert_L. set_solver.
Qed.

Lemma consistent_close k w : consistent w → consistent (close k w).
Proof.
  intros (H1 & H2 & H3 & H4). unfold close.
  split; [|split; [|split; [|done]]]; cbn.
  - intros k' s'. intros [Hne Hs]%lookup_delete_Some. by apply H1.
  - intros r m. rewrite lookup_fmap. destruct (rooms w !! r) as [m0|] eqn:E; [|done].
    cbn. intros [= <-]. rewrite dom_delete_L. specialize (H2 r m0 E). set_solver.
  - rewrite dom_delete_L. set_solver.
Qed.

Lemma run_handler_keeps S (h : M unit) w :
  keeps S h → consistent w → S ⊆ dom (sockets w) →
  consistent (run_handler h w).1 ∧
  sockets (run_handler h w).1 = sockets w ∧
  addressed_to_connected (run_handler h w).1 (run_handler h w).2.
Proof.
  intros Hk Hw HS. unfold run_handler.
  destruct (Hk w [] Hw HS) as (H1 & H2 & H3); [by intros e ?%elem_of_nil|].
  by destruct (h w []) as [[w' out'] o].
Qed.

(** One input keeps the state consistent and addresses connected sockets
    only. *)
Lemma step_keeps_consistent env i w :
  consistent w →
  consistent (step env i w).1 ∧
  addressed_to_connected (step env i w).1 (step env i w).2.
Proof.
  intros Hw. destruct i as [s|from f|from|ms]; cbn [step].
  - destruct (run_handler_keeps {[ sid s ]} (on_connection env s) (accept s w))
      as (H1 & _ & H3); [apply keeps_on_connection | by apply consistent_accept | |done].
    unfold accept. cbn. rewrite dom_insert_L. set_solver.
  - destruct (sockets w !! from) as [s|] eqn:Hs; [|by split; [|intros e ?%elem_of_nil]].
    case_bool_decide; [|by split; [|intros e ?%elem_of_nil]].
    destruct (run_handler_keeps {[ sid s ]} (dispatch env s f) w)
      as (H1 & _ & H3); [apply keeps_dispatch | done | |done].
    destruct Hw as (Hk & _). rewrite (Hk _ _ Hs).
    apply singleton_subseteq_l, elem_of_dom. eauto.
  - destruct (sockets w !! from) as [s|] eqn:Hs; [|by split; [|intros e ?%elem_of_nil]].
    case_bool_decide.
    + destruct (run_handler_keeps ∅ (on_disconnect env s) (close from w))
        as (H1 & _ & H3); [apply keeps_on_disconnect | by apply consistent_close | set_solver | done].
    + split; [by apply consistent_close | by intros e ?%elem_of_nil].
  - by split; [|intros e ?%elem_of_nil].
Qed.

Lemma consistent_server0 : consistent server0.
Proof.
  split; [|split; [|split]]; cbn.
  - intros k s H. by rewrite lookup_empty in H.
  - intros r m H. by rewrite lookup_empty in H.
  - done.
  - constructor.
Qed.

Lemma run_consistent tr w : consistent w → consistent (run tr w).1.
Proof.
  revert w. induction tr as [|[env i] tr IH]; intros w Hw; [done|].
  rewrite run_cons. cbn [fst]. apply IH. by apply step_keeps_consistent.
Qed.





(** ** The presence registry *)

Lemma connection_activeUsers env s w :
  activeUsers (step env (Connection s) w).1 =
    JsMap.set (userId s) {| socketId := sid s; au_user := user s |} (activeUsers w).
Proof.
  unfold step, run_handler, on_connection, User_findByIdAndUpdate, Chat_find,
    socket_broadcast_emit.
  m_unfold. destruct (throws env UserUpdate); [done|]. cbn.
  destruct (throws env ChatFind); [done|]. cbn.
  match goal with |- context [foldl ?f ?w0 ?l] =>
    destruct (foldl_join_fields (sid s) l w0) as (Ha & _) end.
  by rewrite Ha.
Qed.

Lemma connection_users env s w :
  throws env UserUpdate = false →
  users (db (step env (Connection s) w).1) =
    alter (set_presence true (now env 0)) (userId s) (users (db w)).
Proof.
  intros Hok. unfold step, run_handler, on_connection, User_findByIdAndUpdate, Chat_find,
    socket_broadcast_emit.
  m_unfold. rewrite Hok. cbn.
  destruct (throws env ChatFind); [done|]. cbn.
  match goal with |- context [foldl ?f ?w0 ?l] =>
    destruct (foldl_join_fields (sid s) l w0) as (_ & _ & _ & Hd) end.
  by rewrite Hd.
Qed.

Lemma NoDup_keys_unique {V} (m : list (string * V)) k v v' :
  NoDup m.*1 → (k, v) ∈ m → (k, v') ∈ m → v = v'.
Proof.
  induction m as [|[k0 v0] m IH]; [by intros _ ?%elem_of_nil|].
  rewrite fmap_cons. intros [Hk Hm]%NoDup_cons. cbn [fst] in Hk.
  rewrite !elem_of_cons. intros [[= -> ->] | H1] [[= ->] | H2]; try done.
  - destruct Hk. apply list_elem_of_fmap. by exists (k0, v').
  - destruct Hk. apply list_elem_of_fmap. by exists (k0, v).
  - by apply IH.
Qed.

(** X3: after a connection the [activeUsers] entry of the socket's user
    names this socket and carries its user document, whatever entry the
    user had before (the last connection wins) and whether or not a storage
    call rejects; the entries of the other users are as they were. When the
    update goes through, the user document is marked online, last seen at
    the time of the connection. *)
Theorem connection_registers env s w :
  consistent w →
  (∀ a, (userId s, a) ∈ activeUsers (step env (Connection s) w).1
        ↔ a = {| socketId := sid s; au_user := user s |}) ∧
  (∀ u a, u ≠ userId s →
     (u, a) ∈ activeUsers (step env (Connection s) w).1 ↔ (u, a) ∈ activeUsers w) ∧
  (throws env UserUpdate = false →
   ∀ d, users (db w) !! userId s = Some d →
     users (db (step env (Connection s) w).1) !! userId s
       = Some (set_presence true (now env 0) d)).
Proof.
  intros Hw. rewrite connection_activeUsers. split; [|split].
  - intros a. split; [|intros ->; apply JsMap_set_elem].
    intros Ha. eapply NoDup_keys_unique; [|exact Ha|apply JsMap_set_elem].
    apply JsMap_set_NoDup, Hw.
  - intros u a Hne. by apply JsMap_set_other.
  - intros Hok d Hd. rewrite connection_users by done.
    by rewrite lookup_alter_eq, Hd.
Qed.

Lemma disconnect_activeUsers env from s w :
  sockets w !! from = Some s → from ∈ listening w →
  activeUsers (step env (Disconnect from) w).1 = JsMap.delete (userId s) (activeUsers w).
Proof.
  intros Hs Hl. unfold step. rewrite Hs, bool_decide_true by done.
  unfold run_handler, on_disconnect, User_findByIdAndUpdate, socket_broadcast_emit.
  m_unfold. by destruct (throws env UserUpdate).
Qed.

Lemma disconnect_sockets env from s w :
  sockets w !! from = Some s →
  sockets (step env (Disconnect from) w).1 = delete from (sockets w) ∧
  listening (step env (Disconnect from) w).1 = listening w ∖ {[ from ]}.
Proof.
  intros Hs. unfold step. rewrite Hs. case_bool_decide; [|done].
  unfold run_handler, on_disconnect, User_findByIdAndUpdate, socket_broadcast_emit.
  m_unfold. by destruct (throws env UserUpdate).
Qed.

Lemma disconnect_users env from s w :
  sockets w !! from = Some s → from ∈ listening w →
  throws env UserUpdate = false →
  users (db (step env (Disconnect from) w).1) =
    alter (set_presence false (now env 0)) (userId s) (users (db w)).
Proof.
  intros Hs Hl Hok. unfold step. rewrite Hs, bool_decide_true by done.
  unfold run_handler, on_disconnect, User_findByIdAndUpdate, socket_broadcast_emit.
  m_unfold. by rewrite Hok.
Qed.

Lemma getOnlineUsers_run env from s w :
  sockets w !! from = Some s → from ∈ listening w →
  step env (FromClient from GetOnlineUsers) w =
    (w, [{| recipients := {[ sid s ]};
            frame := onlineUsers (summary <$> activeUsers w) |}]).
Proof. intros Hs Hl. by rewrite (step_frame _ _ s) by done. Qed.

(** X4: when a socket disconnects, its user loses the [activeUsers] entry,
    whether or not the user has other sockets: every other socket stays
    connected, and a [getOnlineUsers] from any of them is answered by a list
    without that user. When the update goes through, the user document is
    marked offline, last seen at the time of the disconnection. *)
Theorem disconnect_unregisters_user env from s w :
  sockets w !! from = Some s →
  from ∈ listening w →
  (userId s ∉ (activeUsers (step env (Disconnect from) w).1).*1) ∧
  (∀ o s', o ≠ from → sockets w !! o = Some s' →
     sockets (step env (Disconnect from) w).1 !! o = Some s') ∧
  (throws env UserUpdate = false →
   ∀ d, users (db w) !! userId s = Some d →
     users (db (step env (Disconnect from) w).1) !! userId s
       = Some (set_presence false (now env 0) d)) ∧
  (∀ env2 o s', o ≠ from → sockets w !! o = Some s' → o ∈ listening w →
     ∃ l, (step env2 (FromClient o GetOnlineUsers) (step env (Disconnect from) w).1).2
            = [{| recipients := {[ sid s' ]}; frame := onlineUsers l |}] ∧
          userId s ∉ us_id <$> l).
Proof.
  intros Hs Hl.
  destruct (disconnect_sockets env from s w Hs) as [Hsock Hlist].
  pose proof (disconnect_activeUsers env from s w Hs Hl) as Hact.
  assert (userId s ∉ (activeUsers (step env (Disconnect from) w).1).*1) as Hgone.
  { rewrite Hact. intros [_ Hne]%JsMap_delete_keys. done. }
  split; [exact Hgone|]. split; [|split].
  - intros o s' Hne Ho. rewrite Hsock. by rewrite lookup_delete_ne.
  - intros Hok d Hd. rewrite (disconnect_users env from s w) by done. by rewrite lookup_alter_eq, Hd.
  - intros env2 o s' Hne Ho Hol.
    rewrite (getOnlineUsers_run env2 o s').
    + eexists. split; [done|].
      rewrite <- list_fmap_compose.
      replace (us_id ∘ summary) with (@fst string ActiveUser) by done. exact Hgone.
    + rewrite Hsock. by rewrite lookup_delete_ne.
    + rewrite Hlist. set_solver.
Qed.

(** X5: in a consistent state, [getOnlineUsers] leaves the state as it is
    and is answered on the asking socket only, by a list with one entry
    per key of [activeUsers]: no user is listed twice. *)
Theorem onlineUsers_lists_each_user_once env from s w :
  consistent w →
  sockets w !! from = Some s →
  from ∈ listening w →
  ∃ l,
    step env (FromClient from GetOnlineUsers) w =
      (w, [{| recipients := {[ from ]}; frame := onlineUsers l |}]) ∧
    NoDup (us_id <$> l) ∧
    (∀ u, u ∈ us_id <$> l ↔ u ∈ (activeUsers w).*1).
Proof.
  intros Hw Hs Hl. exists (summary <$> activeUsers w).
  rewrite (getOnlineUsers_run env from s) by done.
  destruct Hw as (Hk & _ & _ & Hnd). rewrite (Hk _ _ Hs).
  rewrite <- list_fmap_compose.
  replace (us_id ∘ summary) with (@fst string ActiveUser) by done. done.
Qed.

(** Alice connects from a third device. *)
Lemma connection_registers_witness :
  ("A", {| socketId := "s5"; au_user := alice |})
    ∈ activeUsers (step (at_time 20 "m2")
                     (Connection {| sid := "s5"; userId := "A"; user := alice |})
                     server_all).1.
Proof.
  destruct (connection_registers (at_time 20 "m2")
              {| sid := "s5"; userId := "A"; user := alice |} server_all)
    as (H & _); [apply run_consistent, consistent_server0|].
  by apply H.
Defined.

(** Alice's phone disconnects; her laptop stays. *)
Lemma disconnect_unregisters_user_witness :
  ("A" ∉ (activeUsers (step (at_time 20 "m2") (Disconnect "s1") server_all).1).*1) ∧
  sockets (step (at_time 20 "m2") (Disconnect "s1") server_all).1 !! "s2" = Some laptop.
Proof.
  destruct (disconnect_unregisters_user (at_time 20 "m2") "s1" phone server_all)
    as (H1 & H2 & _); [by_compute | by_compute |].
  split; [exact H1|]. apply H2; [discriminate | by_compute].
Defined.

Lemma onlineUsers_lists_each_user_once_witness :
  ∃ l,
    step (at_time 20 "m2") (FromClient "s3" GetOnlineUsers) server_all =
      (server_all, [{| recipients := {[ "s3" ]}; frame := onlineUsers l |}]) ∧
    NoDup (us_id <$> l) ∧
    (∀ u, u ∈ us_id <$> l ↔ u ∈ (activeUsers server_all).*1).
Proof.
  apply (onlineUsers_lists_each_user_once (at_time 20 "m2") "s3" desk server_all);
    [apply run_consistent, consistent_server0 | by_compute | by_compute].
Defined.

(** ** Leaving and joining rooms *)

Lemma room_leave s r w : room r (leave s r w) = room r w ∖ {[ s ]}.
Proof. unfold room, leave. cbn. by rewrite lookup_insert_eq. Qed.

Lemma room_leave_other s r r' w : r ≠ r' → room r' (leave s r w) = room r' w.
Proof. intros Hne. unfold room, leave. cbn. by rewrite lookup_insert_ne. Qed.

(** X6: a leaveChat frame emits nothing, takes the socket out of the named
    room and leaves the other rooms and the stored data as they are. From
    then on the socket does not receive the [newMessage] of a send to that
    room, whether or not its user is a participant of the chat. *)
Theorem leaveChat_stops_delivery env w from s chatId :
  sockets w !! from = Some s →
  from ∈ listening w →
  (step env (FromClient from (LeaveChat chatId)) w).2 = [] ∧
  room chatId (step env (FromClient from (LeaveChat chatId)) w).1
    = room chatId w ∖ {[ sid s ]} ∧
  (∀ r, r ≠ chatId →
     room r (step env (FromClient from (LeaveChat chatId)) w).1 = room r w) ∧
  db (step env (FromClient from (LeaveChat chatId)) w).1 = db w ∧
  ∀ env2 from2 s2 data2,
    sockets (step env (FromClient from (LeaveChat chatId)) w).1 !! from2 = Some s2 →
    from2 ∈ listening (step env (FromClient from (LeaveChat chatId)) w).1 →
    fault_free env2 →
    sd_chatId data2 = chatId →
    is_participant (userId s2) chatId (db w) = true →
    Message_validate (new_message env2 s2 data2) = true →
    messages (db w) !! oid env2 = None →
    delivered (sid s)
      (step env2 (FromClient from2 (SendMessage data2))
         (step env (FromClient from (LeaveChat chatId)) w).1).2 = [].
Proof.
  intros Hs Hl. rewrite (step_frame _ _ s) by done.
  cbn [dispatch on_leaveChat socket_leave run_handler modify fst snd].
  split; [done|]. split; [apply room_leave|].
  split; [by intros r Hr; apply room_leave_other|]. split; [done|].
  intros env2 from2 s2 data2 Hs2 Hl2 Hok <- Hp Hv Hfresh.
  rewrite (step_frame _ _ s2) by done. cbn [dispatch].
  rewrite on_sendMessage_success by done. cbn [snd].
  apply delivered_one_out. rewrite room_leave. set_solver.
Qed.

(** X7: joining a room twice is the same as joining it once: the second
    joinChat frame leaves the state as the first one left it and emits
    nothing. *)
Theorem joinChat_idempotent env env' w from s chatId :
  sockets w !! from = Some s →
  from ∈ listening w →
  step env' (FromClient from (JoinChat chatId))
    (step env (FromClient from (JoinChat chatId)) w).1
  = step env (FromClient from (JoinChat chatId)) w.
Proof.
  intros Hs Hl. rewrite (step_frame env _ s) by done.
  cbn [dispatch on_joinChat socket_join run_handler modify fst snd].
  rewrite (step_frame env' _ s) by done.
  cbn [dispatch on_joinChat socket_join run_handler modify fst snd].
  f_equal. unfold join, set_rooms. cbn. f_equal.
  rewrite lookup_insert_eq. cbn. rewrite insert_insert_eq. f_equal.
  set_solver.
Qed.

(** ** More on sending *)

(** X8: when a send goes through, the chat points to the new message and
    its last activity is the time read after the save; its participants,
    the other chats, the other messages, the users and the rooms are as
    they were. *)
Theorem send_updates_chat env w from s data c :
  sockets w !! from = Some s →
  from ∈ listening w →
  fault_free env →
  chats (db w) !! sd_chatId data = Some c →
  userId s ∈ participants c →
  Message_validate (new_message env s data) = true →
  messages (db w) !! oid env = None →
  chats (db (step env (FromClient from (SendMessage data)) w).1) !! sd_chatId data
    = Some {| participants := participants c; lastMessage := Some (oid env);
              lastActivity := now env 1 |} ∧
  (∀ c', c' ≠ sd_chatId data →
     chats (db (step env (FromClient from (SendMessage data)) w).1) !! c'
       = chats (db w) !! c') ∧
  (∀ id, id ≠ oid env →
     messages (db (step env (FromClient from (SendMessage data)) w).1) !! id
       = messages (db w) !! id) ∧
  users (db (step env (FromClient from (SendMessage data)) w).1) = users (db w) ∧
  rooms (step env (FromClient from (SendMessage data)) w).1 = rooms w.
Proof.
  intros Hs Hl Hok Hc Hin Hv Hfresh. rewrite (step_frame _ _ s) by done. cbn [dispatch].
  rewrite on_sendMessage_success; try done.
  2:{ unfold is_participant. rewrite Hc. by apply bool_decide_eq_true. }
  cbn [fst]. unfold after_send. cbn.
  split; [by rewrite lookup_alter_eq, Hc|].
  split; [by intros c' Hne; rewrite lookup_alter_ne|].
  split; [by intros id Hne; rewrite lookup_insert_ne|]. done.
Qed.

(** The outcomes of a send. *)
Lemma send_outcomes env s data w :
  let r := run_handler (on_sendMessage env s data) w in
  (r = (after_send env s data w,
        [{| recipients := room (sd_chatId data) w;
            frame := newMessage
              (Some (populate (db w) (oid env) (new_message env s data))) |}]) ∧
   is_participant (userId s) (sd_chatId data) (db w) = true ∧
   Message_validate (new_message env s data) = true ∧
   messages (db w) !! oid env = None)
  ∨ (∃ msg, r.2 = [to_sender s msg] ∧
       (r.1 = w ∨
        r.1 = set_db (set_messages (insert (oid env) (new_message env s data))) w ∨
        r.1 = after_send env s data w)).
Proof.
  cbv zeta. unfold run_handler, on_sendMessage, try_catch.
  destruct (throws env ChatFindOne) eqn:H1.
  { rewrite try_lookup_throws by done. right. eauto. }
  destruct (is_participant (userId s) (sd_chatId data) (db w)) eqn:Hp.
  2:{ rewrite try_not_participant by done. right. eauto. }
  destruct (Message_validate (new_message env s data)) eqn:Hv.
  2:{ rewrite try_invalid by done. right. eauto. }
  unfold sendMessage_try. cbv zeta.
  rewrite bind_run, Chat_findOne_run, Hp by done.
  unfold is_participant in Hp.
  destruct (chats (db w) !! sd_chatId data) as [c|]; [|discriminate].
  fold (new_message env s data).
  unfold Message_save, Chat_save, Message_findById_populate, io_to_emit.
  rewrite Hv. m_unfold.
  destruct (throws env MessageSave); [right; cbn; eauto|]. cbn.
  destruct (messages (db w) !! oid env) eqn:Hf; [right; cbn; eauto|]. cbn.
  destruct (throws env ChatSave); [right; cbn; eauto|]. cbn.
  destruct (throws env MessageFindById); [right; cbn; eauto 6|]. cbn.
  rewrite lookup_insert_eq. left. done.
Qed.

(** X9: whatever the storage does, a sendMessage frame is answered by
    exactly one frame: an error frame to the sending socket only, or the
    [newMessage] to the room; and the [newMessage] is emitted only when
    the sender is a participant and the message has been stored under a
    new id. *)
Theorem broadcast_only_after_persist env w from s data :
  sockets w !! from = Some s →
  from ∈ listening w →
  (∃ e, (step env (FromClient from (SendMessage data)) w).2 = [e]) ∧
  (∀ e, e ∈ (step env (FromClient from (SendMessage data)) w).2 →
     (∃ msg, e = to_sender s msg) ∨
     (e = {| recipients := room (sd_chatId data) w;
             frame := newMessage
               (Some (populate (db w) (oid env) (new_message env s data))) |} ∧
      messages (db w) !! oid env = None ∧
      messages (db (step env (FromClient from (SendMessage data)) w).1) !! oid env
        = Some (new_message env s data) ∧
      is_participant (userId s) (sd_chatId data) (db w) = true)).
Proof.
  intros Hs Hl. rewrite (step_frame _ _ s) by done. cbn [dispatch].
  destruct (send_outcomes env s data w) as [(-> & Hp & Hv & Hf) | (msg & Hout & _)].
  - cbn [fst snd]. split; [eauto|].
    intros e ->%list_elem_of_singleton. right. split; [done|]. split; [done|].
    split; [|done]. unfold after_send. cbn. apply lookup_insert_eq.
  - rewrite Hout. split; [eauto|].
    intros e ->%list_elem_of_singleton. left. eauto.
Qed.

(** X10: when the message is saved and the save of the chat then rejects,
    the sender is told "Failed to send message" and nothing is broadcast,
    while the message stays stored; the chat is as it was. *)
Theorem chat_save_failure_keeps_message env w from s data :
  sockets w !! from = Some s →
  from ∈ listening w →
  throws env ChatFindOne = false →
  throws env MessageSave = false →
  throws env ChatSave = true →
  is_participant (userId s) (sd_chatId data) (db w) = true →
  Message_validate (new_message env s data) = true →
  messages (db w) !! oid env = None →
  (step env (FromClient from (SendMessage data)) w).2
    = [to_sender s "Failed to send message"] ∧
  messages (db (step env (FromClient from (SendMessage data)) w).1) !! oid env
    = Some (new_message env s data) ∧
  chats (db (step env (FromClient from (SendMessage data)) w).1) = chats (db w).
Proof.
  intros Hs Hl H1 H2 H3 Hp Hv Hf. rewrite (step_frame _ _ s) by done. cbn [dispatch].
  unfold run_handler, on_sendMessage, try_catch, sendMessage_try. cbv zeta.
  rewrite bind_run, Chat_findOne_run, Hp by done.
  unfold is_participant in Hp.
  destruct (chats (db w) !! sd_chatId data) as [c|]; [|discriminate].
  fold (new_message env s data).
  unfold Message_save, Chat_save, Message_findById_populate, io_to_emit.
  rewrite Hv. m_unfold. rewrite H2. cbn. rewrite Hf. cbn. rewrite H3. cbn.
  split; [done|]. split; [apply lookup_insert_eq | done].
Qed.

(** ** More on read receipts *)

(** X11: when the update of the message rejects, a markAsRead frame
    changes nothing and emits nothing: no receipt is broadcast and no
    error frame goes back to the sender. *)
Theorem markAsRead_failure_is_silent env w from s data :
  sockets w !! from = Some s →
  from ∈ listening w →
  throws env MessageUpdate = true →
  step env (FromClient from (MarkAsRead data)) w = (w, []).
Proof.
  intros Hs Hl Ht. rewrite (step_frame _ _ s) by done. cbn [dispatch].
  unfold run_handler, on_markAsRead, Message_findByIdAndUpdate, socket_to_emit.
  m_unfold. by rewrite Ht.
Qed.

(** X12: a markAsRead frame on a stored message only grows its [readBy]:
    chat, sender, content, type and creation time are as they were, the
    former entries are kept in order with at most one entry added at the
    end, and the entry of this user at this time is in the list
    afterwards. The other messages, the chats and the users are
    untouched. *)
Theorem markAsRead_appends_only env w from s data m :
  sockets w !! from = Some s →
  from ∈ listening w →
  throws env MessageUpdate = false →
  messages (db w) !! rd_messageId data = Some m →
  (∃ m',
     messages (db (step env (FromClient from (MarkAsRead data)) w).1) !! rd_messageId data
       = Some m' ∧
     chat m' = chat m ∧ sender m' = sender m ∧ content m' = content m ∧
     messageType m' = messageType m ∧ createdAt m' = createdAt m ∧
     (readBy m' = readBy m ∨
      readBy m' = readBy m ++ [{| re_user := userId s; readAt := now env 0 |}]) ∧
     {| re_user := userId s; readAt := now env 0 |} ∈ readBy m') ∧
  (∀ id, id ≠ rd_messageId data →
     messages (db (step env (FromClient from (MarkAsRead data)) w).1) !! id
       = messages (db w) !! id) ∧
  chats (db (step env (FromClient from (MarkAsRead data)) w).1) = chats (db w) ∧
  users (db (step env (FromClient from (MarkAsRead data)) w).1) = users (db w).
Proof.
  intros Hs Hl Hok Hm. rewrite (step_frame _ _ s) by done. cbn [dispatch].
  rewrite on_markAsRead_run by done. cbn [fst]. cbn.
  split; [|split; [by intros id Hne; rewrite lookup_alter_ne | done]].
  rewrite lookup_alter_eq, Hm. cbn. eexists. split; [done|]. cbn.
  do 5 (split; [done|]). unfold addToSet. case_bool_decide as Hin.
  - split; [by left | done].
  - split; [by right | set_solver].
Qed.

(** Bob leaves the room of "c1"; Alice then sends "hi". *)
Lemma leaveChat_stops_delivery_witness :
  is_participant "B" "c1" (db server_all) = true ∧
  delivered "s3"
    (step (at_time 10 "m1") (FromClient "s1" (SendMessage hi))
       (step (at_time 9 "m0") (FromClient "s3" (LeaveChat "c1")) server_all).1).2 = [].
Proof.
  destruct (leaveChat_stops_delivery (at_time 9 "m0") server_all "s3" desk "c1")
    as (_ & _ & _ & _ & H); [by_compute | by_compute |].
  split; [reflexivity|].
  apply (H (at_time 10 "m1") "s1" phone hi);
    first [ by_compute | intros c; reflexivity ].
Defined.

Lemma joinChat_idempotent_witness :
  step (at_time 10 "m0") (FromClient "s4" (JoinChat "c1"))
    (step (at_time 9 "m0") (FromClient "s4" (JoinChat "c1")) server_guest).1
  = step (at_time 9 "m0") (FromClient "s4" (JoinChat "c1")) server_guest.
Proof.
  apply (joinChat_idempotent (at_time 9 "m0") (at_time 10 "m0") server_guest "s4" guest);
    by_compute.
Defined.

Lemma send_updates_chat_witness :
  chats (db (step (at_time 10 "m1") (FromClient "s1" (SendMessage hi)) server_guest).1)
    !! "c1"
  = Some {| participants := ["A"; "B"]; lastMessage := Some "m1"; lastActivity := 10 |}.
Proof.
  destruct (send_updates_chat (at_time 10 "m1") server_guest "s1" phone hi
              {| participants := ["A"; "B"]; lastMessage := None; lastActivity := 0 |})
    as (H & _);
    [ by_compute | by_compute | intros c; reflexivity | by_compute | by_compute
    | by_compute | by_compute | ].
  exact H.
Defined.

Lemma broadcast_only_after_persist_witness :
  ∃ e, (step (at_time 10 "m1") (FromClient "s1" (SendMessage hi)) server_guest).2 = [e].
Proof.
  destruct (broadcast_only_after_persist (at_time 10 "m1") server_guest "s1" phone hi)
    as (H & _); [by_compute | by_compute | exact H].
Defined.

Lemma chat_save_failure_keeps_message_witness :
  (step chat_save_down (FromClient "s1" (SendMessage hi)) server_guest).2
    = [to_sender phone "Failed to send message"] ∧
  messages (db (step chat_save_down (FromClient "s1" (SendMessage hi)) server_guest).1)
    !! "m1" = Some (new_message chat_save_down phone hi) ∧
  chats (db (step chat_save_down (FromClient "s1" (SendMessage hi)) server_guest).1)
    = chats (db server_guest).
Proof.
  apply (chat_save_failure_keeps_message chat_save_down server_guest "s1" phone hi);
    by_compute.
Defined.

Lemma markAsRead_failure_is_silent_witness :
  step update_down (FromClient "s3" read_m1) server_hi = (server_hi, []).
Proof.
  apply (markAsRead_failure_is_silent update_down server_hi "s3" desk); by_compute.
Defined.

Lemma markAsRead_appends_only_witness :
  ∃ m',
    messages (db (step (at_time 20 "m2") (FromClient "s3" read_m1) server_hi).1) !! "m1"
      = Some m' ∧
    content m' = "hi" ∧
    {| re_user := "B"; readAt := 20 |} ∈ readBy m'.
Proof.
  destruct (markAsRead_appends_only (at_time 20 "m2") server_hi "s3" desk
              {| rd_messageId := "m1"; rd_chatId := "c1" |}
              (new_message (at_time 10 "m1") phone hi))
    as ((m' & H1 & _ & _ & H2 & _ & _ & _ & H3) & _);
    [by_compute | by_compute | reflexivity | by_compute |].
  exists m'. split; [exact H1|]. split; [exact H2 | exact H3].
Defined.

(** ** What no handler does to the stored data *)

Lemma grown_refl m : grown m m.
Proof. by repeat split. Qed.

Lemma grown_trans m1 m2 m3 : grown m1 m2 → grown m2 m3 → grown m1 m3.
Proof.
  intros (H1 & H2 & H3 & H4 & H5 & H6) (K1 & K2 & K3 & K4 & K5 & K6).
  repeat split; try congruence. by etrans.
Qed.

Lemma db_evolves_refl d : db_evolves d d.
Proof.
  split; [|split].
  - intros id. destruct (users d !! id); by constructor.
  - intros id. destruct (chats d !! id); by constructor.
  - intros id m Hm. exists m. split; [done | apply grown_refl].
Qed.

Lemma db_evolves_trans d1 d2 d3 :
  db_evolves d1 d2 → db_evolves d2 d3 → db_evolves d1 d3.
Proof.
  intros (H1 & H2 & H3) (K1 & K2 & K3). split; [|split].
  - intros id. specialize (H1 id). specialize (K1 id).
    destruct H1 as [u u' [? ?]|]; inversion K1 as [? u'' [? ?]|]; subst; constructor.
    split; congruence.
  - intros id. specialize (H2 id). specialize (K2 id).
    destruct H2 as [c c' ?|]; inversion K2 as [? c'' ?|]; subst; constructor.
    unfold same_participants in *. congruence.
  - intros id m Hm. destruct (H3 id m Hm) as (m' & Hm' & Hg).
    destruct (K3 id m' Hm') as (m'' & Hm'' & Hg'). exists m''.
    split; [done | by eapply grown_trans].
Qed.

Lemma evolving_unchanged {A} (c : M A) :
  (∀ w out, (c w out).1.1 = w) → evolving c.
Proof. intros H w out. rewrite H. apply db_evolves_refl. Qed.

Lemma evolving_bind {A B} (c : M A) (k : A → M B) :
  evolving c → (∀ a, evolving (k a)) → evolving (c ≫= k).
Proof.
  intros Hc Hk w out. rewrite bind_run. specialize (Hc w out).
  destruct (c w out) as [[w1 out1] [a|e]]; cbn in *; [|done].
  eapply db_evolves_trans; [exact Hc | apply Hk].
Qed.

Lemma evolving_try_catch {A} (c : M A) (h : Exn → M A) :
  evolving c → (∀ e, evolving (h e)) → evolving (try_catch c h).
Proof.
  intros Hc Hh w out. unfold try_catch. specialize (Hc w out).
  destruct (c w out) as [[w1 out1] [a|e]]; cbn in *; [done|].
  eapply db_evolves_trans; [exact Hc | apply Hh].
Qed.

Lemma evolving_storage env c : evolving (storage env c).
Proof. apply evolving_unchanged. intros. unfold storage. by destruct (throws env c). Qed.

Lemma evolving_modify (f : Server → Server) :
  (∀ w, db_evolves (db w) (db (f w))) → evolving (modify f).
Proof. intros Hf w out. apply Hf. Qed.

Lemma evolving_emit (to : Server → gset string) (f : Server → Frame) :
  evolving (w ← get; emit (to w) (f w)).
Proof. by apply evolving_unchanged. Qed.

Lemma evolves_presence online seen id d :
  db_evolves d (set_users (alter (λ u,
    {| username := username u; avatar := avatar u;
       isOnline := online; lastSeen := seen |}) id) d).
Proof.
  split; [|split]; cbn.
  - intros k. destruct (decide (id = k)) as [<-|Hne].
    + rewrite lookup_alter_eq. destruct (users d !! id); by constructor.
    + rewrite lookup_alter_ne by done. destruct (users d !! k); by constructor.
  - intros k. destruct (chats d !! k); by constructor.
  - intros k m Hm. exists m. split; [done | apply grown_refl].
Qed.

Lemma evolves_touch last activity id d :
  db_evolves d (set_chats (alter (λ c,
    {| participants := participants c; lastMessage := Some last;
       lastActivity := activity |}) id) d).
Proof.
  split; [|split]; cbn.
  - intros k. destruct (users d !! k); by constructor.
  - intros k. destruct (decide (id = k)) as [<-|Hne].
    + rewrite lookup_alter_eq. destruct (chats d !! id); by constructor.
    + rewrite lookup_alter_ne by done. destruct (chats d !! k); by constructor.
  - intros k m Hm. exists m. split; [done | apply grown_refl].
Qed.

Lemma evolves_insert id m d :
  messages d !! id = None → db_evolves d (set_messages (insert id m) d).
Proof.
  intros Hf. split; [|split]; cbn.
  - intros k. destruct (users d !! k); by constructor.
  - intros k. destruct (chats d !! k); by constructor.
  - intros k m0 Hm. exists m0. split; [|apply grown_refl].
    rewrite lookup_insert_ne; [done | congruence].
Qed.

Lemma evolves_addToSet e id d :
  db_evolves d (set_messages (alter (λ m,
    {| chat := chat m; sender := sender m; content := content m;
       messageType := messageType m; readBy := addToSet e (readBy m);
       createdAt := createdAt m |}) id) d).
Proof.
  split; [|split]; cbn.
  - intros k. destruct (users d !! k); by constructor.
  - intros k. destruct (chats d !! k); by constructor.
  - intros k m Hm. destruct (decide (id = k)) as [<-|Hne].
    + rewrite lookup_alter_eq, Hm. cbn. eexists. split; [done|].
      repeat split; cbn. unfold addToSet. case_bool_decide; [done|].
      by apply prefix_app_r.
    + rewrite lookup_alter_ne by done. exists m. split; [done | apply grown_refl].
Qed.

Lemma evolving_rooms_only (f : Server → Server) :
  (∀ w, db (f w) = db w) → evolving (modify f).
Proof. intros H. apply evolving_modify. intros w. rewrite H. apply db_evolves_refl. Qed.

Lemma evolving_on_connection env s : evolving (on_connection env s).
Proof.
  unfold on_connection, User_findByIdAndUpdate, Chat_find, socket_broadcast_emit.
  apply evolving_bind; [by apply evolving_rooms_only | intros _].
  apply evolving_bind; [|intros _].
  { apply evolving_bind; [apply evolving_storage | intros _].
    apply evolving_modify. intros w. apply evolves_presence. }
  apply evolving_bind; [|intros userChats].
  { apply evolving_bind; [apply evolving_storage | intros _]. by apply evolving_unchanged. }
  apply evolving_bind; [|intros _].
  { apply evolving_rooms_only. intros w. apply foldl_join_fields. }
  apply evolving_bind; [apply evolving_emit | intros _]. by apply evolving_rooms_only.
Qed.

Lemma evolving_on_disconnect env s : evolving (on_disconnect env s).
Proof.
  unfold on_disconnect, User_findByIdAndUpdate, socket_broadcast_emit.
  apply evolving_bind; [by apply evolving_rooms_only | intros _].
  apply evolving_bind; [|intros _; apply evolving_emit].
  apply evolving_bind; [apply evolving_storage | intros _].
  apply evolving_modify. intros w. apply evolves_presence.
Qed.

Lemma evolving_on_sendMessage env s data : evolving (on_sendMessage env s data).
Proof.
  unfold on_sendMessage, sendMessage_try, socket_emit, io_to_emit. cbv zeta.
  apply evolving_try_catch; [|by intros _; apply evolving_unchanged].
  apply evolving_bind; [|intros [c|]; [|by apply evolving_unchanged]].
  { unfold Chat_findOne. apply evolving_bind; [apply evolving_storage | intros _].
    by apply evolving_unchanged. }
  apply evolving_bind; [|intros _].
  { unfold Message_save. destruct (Message_validate _); [|by apply evolving_unchanged].
    apply evolving_bind; [apply evolving_storage | intros _].
    intros w out. rewrite bind_run. cbn [get].
    destruct (messages (db w) !! oid env) eqn:Hf; cbn.
    - apply db_evolves_refl.
    - by apply evolves_insert. }
  apply evolving_bind; [|intros _].
  { unfold Chat_save. apply evolving_bind; [apply evolving_storage | intros _].
    apply evolving_modify. intros w. apply evolves_touch. }
  apply evolving_bind; [|intros pm; apply evolving_emit].
  unfold Message_findById_populate.
  apply evolving_bind; [apply evolving_storage | intros _]. by apply evolving_unchanged.
Qed.

Lemma evolving_on_markAsRead env s data : evolving (on_markAsRead env s data).
Proof.
  unfold on_markAsRead, Message_findByIdAndUpdate, socket_to_emit. cbv zeta.
  apply evolving_try_catch; [|by intros _; apply evolving_unchanged].
  apply evolving_bind; [|intros _; apply evolving_emit].
  apply evolving_bind; [apply evolving_storage | intros _].
  apply evolving_modify. intros w. apply evolves_addToSet.
Qed.

Lemma evolving_dispatch env s f : evolving (dispatch env s f).
Proof.
  destruct f as [c|c|data|data|data|]; cbn [dispatch].
  - by apply evolving_rooms_only.
  - by apply evolving_rooms_only.
  - apply evolving_on_sendMessage.
  - apply evolving_emit.
  - apply evolving_on_markAsRead.
  - by apply evolving_unchanged.
Qed.

Lemma run_handler_evolving (h : M unit) w :
  evolving h → db_evolves (db w) (db (run_handler h w).1).
Proof.
  intros Hh. unfold run_handler. specialize (Hh w []).
  by destruct (h w []) as [[w' out'] o].
Qed.

Lemma step_evolves env i w : db_evolves (db w) (db (step env i w).1).
Proof.
  destruct i as [s|from f|from|ms]; cbn [step].
  - apply (run_handler_evolving _ (accept s w)), evolving_on_connection.
  - destruct (sockets w !! from) as [s|]; [|apply db_evolves_refl].
    case_bool_decide; [|apply db_evolves_refl].
    apply run_handler_evolving, evolving_dispatch.
  - destruct (sockets w !! from) as [s|]; [|apply db_evolves_refl].
    case_bool_decide; [|apply db_evolves_refl].
    apply (run_handler_evolving _ (close from w)), evolving_on_disconnect.
  - apply db_evolves_refl.
Qed.

(** X13: along every sequence of inputs the stored data only evolves: no
    user and no chat is added or removed, the names and avatars of the
    users and the participants of the chats stay as they are, and no
    message is removed or rewritten: a stored message keeps its chat,
    sender, content, type and creation time, and its [readBy] only grows
    at the end. *)
Theorem stored_data_only_grows tr w :
  db_evolves (db w) (db (run tr w).1).
Proof.
  revert w. induction tr as [|[env i] tr IH]; intros w; [apply db_evolves_refl|].
  rewrite run_cons. cbn [fst].
  eapply db_evolves_trans; [apply step_evolves | apply IH].
Qed.

(** ** Authentication *)

(** X14: [socketAuth] lets a connection through exactly when the token is
    present and not empty, verifies to a user id, the lookup does not
    reject and a user with that id is stored; the socket then carries that
    id and that user document. Every refusal, whatever its cause, carries
    the same message. *)
Theorem socketAuth_outcome jwt_verify find_rejects token id d :
  (∀ s, socketAuth jwt_verify find_rejects token id d = inr s ↔
     ∃ t uid u,
       token = Some t ∧ t ≠ EmptyString ∧ jwt_verify t = Some uid ∧
       find_rejects = false ∧ users d !! uid = Some u ∧
       s = {| sid := id; userId := uid; user := u |}) ∧
  (∀ e, socketAuth jwt_verify find_rejects token id d = inl e →
     e = AUTH_ERROR_MESSAGE).
Proof.
  unfold socketAuth. split.
  - intros s. split.
    + destruct token as [t|]; [|done].
      case_bool_decide as Ht; [done|].
      destruct (jwt_verify t) as [uid|] eqn:Hv; [|done].
      destruct find_rejects; [done|].
      destruct (users d !! uid) as [u|] eqn:Hu; [|done].
      intros [= <-]. by exists t, uid, u.
    + intros (t & uid & u & -> & Ht & Hv & -> & Hu & ->).
      by rewrite bool_decide_false, Hv, Hu.
  - intros e. destruct token as [t|]; [|by intros [= <-]].
    case_bool_decide; [by intros [= <-]|].
    destruct (jwt_verify t); [|by intros [= <-]].
    destruct find_rejects; [by intros [= <-]|].
    destruct (users d !! _); [done | by intros [= <-]].
Qed.

Lemma socketAuth_accepted jwt_verify find_rejects token id d s :
  socketAuth jwt_verify find_rejects token id d = inr s →
  ∃ uid u, users d !! uid = Some u ∧ s = {| sid := id; userId := uid; user := u |}.
Proof.
  unfold socketAuth. destruct token as [t|]; [|done].
  case_bool_decide; [done|]. destruct (jwt_verify t) as [uid|]; [|done].
  destruct find_rejects; [done|].
  destruct (users d !! uid) as [u|] eqn:Hu; [|done].
  intros [= <-]. eauto.
Qed.

(** X15: when a connection attempt gets through and the storage calls of
    the connection handler succeed, the socket is connected under its id
    with its handlers registered, its user is a stored user, now marked
    online, and the one frame emitted is a [userOnline] with the stored
    name of that user, addressed to the sockets connected before. *)
Theorem authenticated_connection jwt_verify find_rejects env token id w w' out :
  connection_attempt jwt_verify find_rejects env token id w = inr (w', out) →
  fault_free env →
  ∃ uid u,
    users (db w) !! uid = Some u ∧
    sockets w' !! id = Some {| sid := id; userId := uid; user := u |} ∧
    id ∈ listening w' ∧
    users (db w') !! uid = Some (set_presence true (now env 0) u) ∧
    out = [{| recipients := dom (sockets w) ∖ {[ id ]};
              frame := userOnline uid (username u) |}].
Proof.
  unfold connection_attempt. intros Hc Hok.
  destruct (socketAuth _ _ _ _ _) as [e|s] eqn:Ha; [done|].
  apply socketAuth_accepted in Ha as (uid & u & Hu & ->).
  exists uid, u. split; [done|].
  set (sock := {| sid := id; userId := uid; user := u |}) in *.
  destruct (step_connection env sock w Hok) as (H1 & H2 & H3).
  pose proof (connection_users env sock w (Hok _)) as H4.
  destruct (step env (Connection sock) w) as [w1 o1].
  injection Hc as -> ->. cbn in *.
  split; [by rewrite H2, lookup_insert_eq|]. split; [rewrite H3; set_solver|].
  split; [|done]. by rewrite H4, lookup_alter_eq, Hu.
Qed.

(** ** The REST route *)

Lemma post_message_success env me chatId text kind w out :
  fault_free env →
  text ≠ EmptyString →
  is_participant me chatId (db w) = true →
  Message_validate (Message_new chatId me text (default "text" kind) [me] (now env 0))
    = true →
  messages (db w) !! oid env = None →
  post_message env me chatId text kind w out =
    (set_db (set_chats (alter (λ c,
        {| participants := participants c; lastMessage := Some (oid env);
           lastActivity := now env 1 |}) chatId))
       (set_db (set_messages (insert (oid env)
          (Message_new chatId me text (default "text" kind) [me] (now env 0)))) w),
     out,
     Returned (Created (Some (populate (db w) (oid env)
       (Message_new chatId me text (default "text" kind) [me] (now env 0)))))).
Proof.
  intros Hok Ht Hp Hv Hf. unfold post_message, try_catch.
  rewrite bool_decide_false by done.
  rewrite bind_run, Chat_findOne_run, Hp by done.
  unfold is_participant in Hp.
  destruct (chats (db w) !! chatId) as [c|]; [|discriminate].
  unfold Message_save, Chat_save, Message_findById_populate.
  rewrite Hv. m_unfold. rewrite !Hok. cbn. rewrite Hf. cbn.
  by rewrite lookup_insert_eq.
Qed.

(** X16: for a send that goes through, the REST route leaves the state the
    socket handler leaves and answers 201 with the message the socket
    handler broadcasts, but emits no frame: the sockets in the room are not
    told of a message posted over REST. *)
Theorem post_message_like_socket env s data w :
  fault_free env →
  sd_content data ≠ EmptyString →
  is_participant (userId s) (sd_chatId data) (db w) = true →
  Message_validate (new_message env s data) = true →
  messages (db w) !! oid env = None →
  ∃ pm,
    post_message env (userId s) (sd_chatId data) (sd_content data)
      (sd_messageType data) w []
      = ((run_handler (on_sendMessage env s data) w).1, [], Returned (Created (Some pm))) ∧
    (run_handler (on_sendMessage env s data) w).2 =
      [{| recipients := room (sd_chatId data) w; frame := newMessage (Some pm) |}].
Proof.
  intros Hok Ht Hp Hv Hf. eexists. split.
  - rewrite post_message_success by done. rewrite on_sendMessage_success by done.
    reflexivity.
  - by rewrite on_sendMessage_success by done.
Qed.

(** X17: the REST route never emits a frame. An empty content is answered
    400 before any storage call, whoever sends it. For a non-empty content,
    a membership lookup that rejects is answered 500 "Server error", and a
    lookup that completes for a non-participant is answered 404 "Chat not
    found", both with the state unchanged. A 201 is answered only when the
    sender is a participant and the message is stored. *)
Theorem post_message_never_emits env me chatId text kind w out :
  (post_message env me chatId text kind w out).1.2 = out ∧
  (text = EmptyString →
   post_message env me chatId text kind w out
     = (w, out, Returned (BadRequest ["Message content is required"]))) ∧
  (text ≠ EmptyString → throws env ChatFindOne = true →
   post_message env me chatId text kind w out
     = (w, out, Returned (ServerError "Server error"))) ∧
  (text ≠ EmptyString → throws env ChatFindOne = false →
   is_participant me chatId (db w) = false →
   post_message env me chatId text kind w out
     = (w, out, Returned (NotFound "Chat not found"))) ∧
  (∀ pm, (post_message env me chatId text kind w out).2 = Returned (Created pm) →
     is_participant me chatId (db w) = true ∧
     messages (db (post_message env me chatId text kind w out).1.1) !! oid env
       = Some (Message_new chatId me text (default "text" kind) [me] (now env 0))).
Proof.
  unfold post_message, try_catch.
  destruct (decide (text = EmptyString)) as [->|Ht].
  { cbn. split; [done|]. split; [done|]. split; [done|]. split; [done|]. intros pm [=]. }
  rewrite bool_decide_false by done.
  split; [|split; [done|split; [|split]]].
  - rewrite bind_run. destruct (throws env ChatFindOne) eqn:H1.
    { by rewrite Chat_findOne_throws. }
    rewrite Chat_findOne_run by done.
    destruct (is_participant me chatId (db w)) eqn:Hp; [|done].
    unfold is_participant in Hp.
    destruct (chats (db w) !! chatId) as [c|]; [|discriminate].
    unfold Message_save, Chat_save, Message_findById_populate.
    destruct (Message_validate _); [|done]. m_unfold.
    destruct (throws env MessageSave); [done|]. cbn.
    destruct (messages (db w) !! oid env); [done|]. cbn.
    destruct (throws env ChatSave); [done|]. cbn.
    by destruct (throws env MessageFindById).
  - intros _ H1. by rewrite bind_run, Chat_findOne_throws.
  - intros _ H1 Hp. by rewrite bind_run, Chat_findOne_run, Hp.
  - intros pm. rewrite bind_run. destruct (throws env ChatFindOne) eqn:H1.
    { by rewrite Chat_findOne_throws. }
    rewrite Chat_findOne_run by done.
    destruct (is_participant me chatId (db w)) eqn:Hp; [|done].
    unfold is_participant in Hp.
    destruct (chats (db w) !! chatId) as [c|]; [|discriminate].
    unfold Message_save, Chat_save, Message_findById_populate.
    destruct (Message_validate _); [|done]. m_unfold.
    destruct (throws env MessageSave); [done|]. cbn.
    destruct (messages (db w) !! oid env); [done|]. cbn.
    destruct (throws env ChatSave); [done|]. cbn.
    destruct (throws env MessageFindById); [done|]. cbn.
    intros _. split; [done|]. apply lookup_insert_eq.
Qed.

(** ** The client's list of online users *)

Lemma isUserOnline_true q l :
  isUserOnline q l = true ↔ ∃ u, u ∈ l ∧ (entry_userId u = q ∨ entry_id u = q).
Proof. unfold isUserOnline. by rewrite bool_decide_eq_true, Exists_exists. Qed.

(** X18: on the client, a [userOffline] frame removes the entries that
    came from [userOnline] frames only: afterwards [isUserOnline] still
    answers true for the user exactly when the list holds an entry of an
    [onlineUsers] snapshot with that id. *)
Theorem offline_spares_snapshot_entries uid l :
  isUserOnline (Some uid) (client_userOffline uid l) = true
  ↔ ∃ s, FromSnapshot s ∈ l ∧ us_id s = uid.
Proof.
  rewrite isUserOnline_true. unfold client_userOffline. split.
  - intros (u & [Hne Hu]%list_elem_of_filter & [H | H]); [done|].
    destruct u as [? ?|s]; [done|]. injection H as H. eauto.
  - intros (s & Hs & <-). exists (FromSnapshot s). split; [|by right].
    by apply list_elem_of_filter.
Qed.

Lemma client_userOnline_known uid uname l :
  (∃ u, u ∈ l ∧ entry_userId u = Some uid) → client_userOnline uid uname l = l.
Proof.
  intros (u & Hu & He). unfold client_userOnline.
  destruct (list_find _ l) as [[i x]|] eqn:Hf; [done|].
  apply list_find_None in Hf. rewrite Forall_forall in Hf. by destruct (Hf u Hu).
Qed.

Lemma client_userOnline_new uid uname l :
  (∀ u, u ∈ l → entry_userId u ≠ Some uid) →
  client_userOnline uid uname l = l ++ [FromEvent uid uname].
Proof.
  intros Hn. unfold client_userOnline.
  destruct (list_find _ l) as [[i x]|] eqn:Hf; [|done].
  apply list_find_Some in Hf as (Hx%list_elem_of_lookup_2 & He & _).
  by destruct (Hn x Hx).
Qed.

(** X19: on the client, a second [userOnline] frame for a user changes
    nothing, a [userOffline] frame after a [userOnline] frame leaves what
    the [userOffline] frame alone would have left, and after a
    [userOnline] frame [isUserOnline] answers true for the user. *)
Theorem userOnline_then_userOffline uid uname uname' l :
  client_userOnline uid uname' (client_userOnline uid uname l)
    = client_userOnline uid uname l ∧
  client_userOffline uid (client_userOnline uid uname l) = client_userOffline uid l ∧
  isUserOnline (Some uid) (client_userOnline uid uname l) = true.
Proof.
  destruct (decide (Exists (λ u, entry_userId u = Some uid) l)) as [He | Hn].
  - apply Exists_exists in He.
    rewrite (client_userOnline_known uid uname l He).
    rewrite (client_userOnline_known uid uname' l He). split; [done|]. split; [done|].
    apply isUserOnline_true. destruct He as (u & ? & ?). eauto.
  - assert (∀ u, u ∈ l → entry_userId u ≠ Some uid) as Hn'.
    { intros u Hu He. apply Hn, Exists_exists. eauto. }
    rewrite (client_userOnline_new uid uname l) by done.
    split; [|split].
    + apply client_userOnline_known. exists (FromEvent uid uname).
      split; [set_solver | done].
    + unfold client_userOffline. rewrite filter_app, filter_cons_False, filter_nil.
      * by rewrite app_nil_r.
      * cbn. by intros H.
    + apply isUserOnline_true. exists (FromEvent uid uname). split; [set_solver | by left].
Qed.

(** ** The client's typing indicators *)

Lemma obj_get_set {V} k (v : V) o : obj_get k (JsMap.set k v o) = Some v.
Proof.
  induction o as [|[k' v'] o IH]; cbn.
  - by rewrite decide_True.
  - destruct (decide (k' = k)) as [->|Hne]; cbn.
    + by rewrite decide_True.
    + by rewrite decide_False.
Qed.

Lemma obj_get_set_ne {V} k k' (v : V) o :
  k ≠ k' → obj_get k' (JsMap.set k v o) = obj_get k' o.
Proof.
  intros Hne. induction o as [|[k0 v0] o IH]; cbn.
  - by rewrite decide_False.
  - destruct (decide (k0 = k)) as [->|Hk]; cbn.
    + by rewrite !decide_False.
    + destruct (decide (k0 = k')); [done | exact IH].
Qed.

(** X20: on the client, the typing states received from the server are
    filed under the key of an absent [chatId]: whatever [userTyping] frames
    arrive and whatever timers fire, [getChatTypingUsers] answers for any
    other chat id what it answered before. *)
Theorem typing_never_shown_for_a_chat chatId (evs : list TypingEv) (t : TypingUsers) :
  chatId ≠ typing_key →
  getChatTypingUsers chatId (foldl (λ t e, client_typing e t) t evs)
    = getChatTypingUsers chatId t.
Proof.
  intros Hne. revert t. induction evs as [|e evs IH]; intros t; [done|].
  cbn [foldl]. rewrite IH. unfold getChatTypingUsers.
  destruct e as [data|data]; cbn [client_typing];
    unfold client_userTyping, client_typing_timeout;
    by rewrite obj_get_set_ne.
Qed.

(** ** The reducer of AuthContext *)

(** X21: whatever actions the reducer of AuthContext handles from its
    initial state, the token of the state is the token in [localStorage],
    and [isAuthenticated] holds exactly when a user is set. *)
Theorem authReducer_invariant {U} (stored : option string) (actions : list (AuthAction U)) :
  let st := foldl authReducer (initialState stored) actions in
  as_token st = stored_token st ∧
  (isAuthenticated st = true ↔ is_Some (as_user st)).
Proof.
  cbv zeta.
  assert (∀ st : AuthState U,
    (as_token st = stored_token st ∧ (isAuthenticated st = true ↔ is_Some (as_user st))) →
    let st' := foldl authReducer st actions in
    as_token st' = stored_token st' ∧ (isAuthenticated st' = true ↔ is_Some (as_user st')))
    as Hgen.
  { induction actions as [|a actions IH]; intros st Hst; [done|].
    cbn [foldl]. apply IH. destruct Hst as [H1 H2].
    destruct a; cbn; try done; (split; [done|]); split; try done;
      try (intros _; by eexists); by intros [? ?]. }
  apply Hgen. cbn. split; [done|]. split; [done | by intros [? ?]].
Qed.

(** ** Rooms at connection *)

Lemma room_foldl_join_inv s (l : list string) c w :
  s ∈ room c (foldl (λ w chatId, join s chatId w) w l) → c ∈ l ∨ s ∈ room c w.
Proof.
  revert w. induction l as [|c' l IH]; intros w; cbn; [by right|].
  intros [Hc | Hs]%IH; [left; by right|].
  destruct (decide (c' = c)) as [->|Hne]; [left; by left|].
  right. by rewrite room_join_other in Hs.
Qed.

Lemma room_foldl_join_others s s' (l : list string) c w :
  s' ≠ s →
  s' ∈ room c (foldl (λ w chatId, join s chatId w) w l) ↔ s' ∈ room c w.
Proof.
  intros Hne. revert w. induction l as [|c' l IH]; intros w; cbn; [done|].
  rewrite IH. destruct (decide (c' = c)) as [->|Hc].
  - rewrite room_join. set_solver.
  - by rewrite room_join_other.
Qed.

(** X22: after a connection whose storage calls succeed, the new socket is
    in the room named by its own id and in the rooms of the chats its user
    participates in, and in no other room it was not in before; the rooms
    of the other sockets are as they were. *)
Theorem connection_rooms env s w :
  fault_free env →
  (∀ c, sid s ∈ room c (step env (Connection s) w).1 ↔
        c = sid s ∨ is_participant (userId s) c (db w) = true ∨ sid s ∈ room c w) ∧
  (∀ c o, o ≠ sid s →
        o ∈ room c (step env (Connection s) w).1 ↔ o ∈ room c w).
Proof.
  intros Hok. unfold step, run_handler, on_connection, User_findByIdAndUpdate,
    Chat_find, socket_broadcast_emit.
  m_unfold. rewrite !Hok. cbn.
  assert (∀ c o, o ∈ room c
    (set_listening (λ l, {[sid s]} ∪ l)
       (foldl (λ w0 chatId, join (sid s) chatId w0)
          (set_db (set_users (alter (λ u,
             {| username := username u; avatar := avatar u; isOnline := true;
                lastSeen := now env 0 |}) (userId s)))
             (set_activeUsers (JsMap.set (userId s)
                {| socketId := sid s; au_user := user s |}) (accept s w)))
          (map_to_list (filter (λ kc, userId s ∈ participants kc.2)
                          (chats (db w)))).*1))
    ↔ o ∈ room c
        (foldl (λ w0 chatId, join (sid s) chatId w0)
          (set_db (set_users (alter (λ u,
             {| username := username u; avatar := avatar u; isOnline := true;
                lastSeen := now env 0 |}) (userId s)))
             (set_activeUsers (JsMap.set (userId s)
                {| socketId := sid s; au_user := user s |}) (accept s w)))
          (map_to_list (filter (λ kc, userId s ∈ participants kc.2)
                          (chats (db w)))).*1)) as Hroom by done.
  assert (∀ c o, o ∈ room c
      (set_db (set_users (alter (λ u,
             {| username := username u; avatar := avatar u; isOnline := true;
                lastSeen := now env 0 |}) (userId s)))
             (set_activeUsers (JsMap.set (userId s)
                {| socketId := sid s; au_user := user s |}) (accept s w)))
      ↔ (c = sid s ∧ o = sid s) ∨ o ∈ room c w) as Hacc.
  { intros c o. change (o ∈ room c (accept s w) ↔ (c = sid s ∧ o = sid s) ∨ o ∈ room c w).
    unfold accept. destruct (decide (sid s = c)) as [<-|Hne].
    - rewrite room_join. unfold room at 1. cbn. fold (room (sid s) w). set_solver.
    - rewrite room_join_other by done. unfold room at 1. cbn. fold (room c w).
      naive_solver. }
  assert (∀ c, c ∈ (map_to_list (filter (λ kc, userId s ∈ participants kc.2)
                          (chats (db w)))).*1
               ↔ is_participant (userId s) c (db w) = true) as Hl.
  { intros c. unfold is_participant. rewrite list_elem_of_fmap. split.
    - intros ([c' cd] & -> & Hin%elem_of_map_to_list).
      apply map_lookup_filter_Some in Hin as [Hc Hp]. cbn in *.
      rewrite Hc. by apply bool_decide_eq_true.
    - destruct (chats (db w) !! c) as [cd|] eqn:Hc; [|done].
      intros Hp%bool_decide_eq_true. exists (c, cd). split; [done|].
      apply elem_of_map_to_list. by apply map_lookup_filter_Some. }
  split.
  - intros c. rewrite Hroom. split.
    + intros [Hc | Hs]%room_foldl_join_inv.
      * right. left. by apply Hl.
      * apply Hacc in Hs as [[-> _] | Hs]; [by left | by right; right].
    + intros [-> | [Hp | Hs]]; apply room_foldl_join.
      * right. apply Hacc. by left.
      * left. by apply Hl.
      * right. apply Hacc. by right.
  - intros c o Hne. rewrite Hroom, room_foldl_join_others by done.
    rewrite Hacc. naive_solver.
Qed.

Lemma authenticated_connection_witness :
  ∃ uid u,
    users (db server_bob) !! uid = Some u ∧
    sockets (step (at_time 2 "m0") (Connection phone) server_bob).1 !! "s1"
      = Some {| sid := "s1"; userId := uid; user := u |} ∧
    "s1" ∈ listening (step (at_time 2 "m0") (Connection phone) server_bob).1 ∧
    users (db (step (at_time 2 "m0") (Connection phone) server_bob).1) !! uid
      = Some (set_presence true (now (at_time 2 "m0") 0) u) ∧
    (step (at_time 2 "m0") (Connection phone) server_bob).2
      = [{| recipients := dom (sockets server_bob) ∖ {[ "s1" ]};
            frame := userOnline uid (username u) |}].
Proof.
  apply (authenticated_connection token_of_alice false (at_time 2 "m0")
           (Some "tokA") "s1" server_bob).
  - by_compute.
  - intros c. reflexivity.
Defined.

Lemma post_message_like_socket_witness :
  ∃ pm,
    post_message (at_time 10 "m1") "A" "c1" "hi" None server_guest []
      = ((run_handler (on_sendMessage (at_time 10 "m1") phone hi) server_guest).1, [],
         Returned (Created (Some pm))) ∧
    (run_handler (on_sendMessage (at_time 10 "m1") phone hi) server_guest).2 =
      [{| recipients := room "c1" server_guest; frame := newMessage (Some pm) |}].
Proof.
  apply (post_message_like_socket (at_time 10 "m1") phone hi server_guest);
    [ intros c; reflexivity | discriminate | by_compute | by_compute | by_compute ].
Defined.

Lemma typing_never_shown_for_a_chat_witness :
  getChatTypingUsers "c1"
    (foldl (λ t e, client_typing e t) []
       [ Received {| tp_userId := "A"; tp_username := "alice"; tp_isTyping := true |} ])
  = [].
Proof.
  rewrite (typing_never_shown_for_a_chat "c1"); [reflexivity | discriminate].
Defined.

Lemma connection_rooms_witness :
  "s1" ∈ room "c1" (step (at_time 2 "m0") (Connection phone) server_bob).1 ∧
  ("s3" ∈ room "c1" (step (at_time 2 "m0") (Connection phone) server_bob).1
   ↔ "s3" ∈ room "c1" server_bob).
Proof.
  destruct (connection_rooms (at_time 2 "m0") phone server_bob) as [H1 H2];
    [intros c; reflexivity|].
  split.
  - apply H1. right. left. reflexivity.
  - apply H2. discriminate.
Defined.

(** ** The chat window *)

(** X23: the message broadcast by a send that goes through is appended by a
    client whose window shows that chat, and ignored by a client whose
    window shows another chat or none, although its socket receives the
    frame when it is in the room. *)
Theorem broadcast_shown_in_its_chat env w from s data :
  sockets w !! from = Some s →
  from ∈ listening w →
  fault_free env →
  is_participant (userId s) (sd_chatId data) (db w) = true →
  Message_validate (new_message env s data) = true →
  messages (db w) !! oid env = None →
  ∃ pm,
    (step env (FromClient from (SendMessage data)) w).2 =
      [{| recipients := room (sd_chatId data) w; frame := newMessage (Some pm) |}] ∧
    (∀ prev, handleNewMessage (Some (sd_chatId data)) pm prev = prev ++ [pm]) ∧
    (∀ viewing prev, viewing ≠ Some (sd_chatId data) →
       handleNewMessage viewing pm prev = prev).
Proof.
  intros Hs Hl Hok Hp Hv Hfresh. rewrite (step_frame _ _ s) by done. cbn [dispatch].
  rewrite on_sendMessage_success by done. cbn [snd].
  eexists. split; [done|]. unfold handleNewMessage. cbn. split.
  - intros prev. by rewrite bool_decide_true.
  - intros viewing prev Hne. by rewrite bool_decide_false.
Qed.

Lemma broadcast_shown_in_its_chat_witness :
  ∃ pm,
    (step (at_time 10 "m1") (FromClient "s1" (SendMessage hi)) server_guest).2 =
      [{| recipients := room "c1" server_guest; frame := newMessage (Some pm) |}] ∧
    handleNewMessage (Some "c1") pm [] = [pm] ∧
    handleNewMessage (Some "c2") pm [] = [].
Proof.
  destruct (broadcast_shown_in_its_chat (at_time 10 "m1") server_guest "s1" phone hi)
    as (pm & H1 & H2 & H3);
    [ by_compute | by_compute | intros c; reflexivity | by_compute | by_compute
    | by_compute | ].
  exists pm. split; [exact H1|]. split; [apply (H2 []) | by apply H3].
Defined.

(** ** The event loop *)

Lemma loop_run_cons e tr L :
  loop_run (e :: tr) L =
    ((loop_run tr (loop_step e L).1).1,
     (loop_step e L).2 ++ (loop_run tr (loop_step e L).1).2).
Proof. simpl. destruct (loop_step e L) as [L1 o1]. simpl. by destruct (loop_run tr L1). Qed.

Lemma suspend_lookup env s stage ws :
  suspend env s stage ws !! length ws
    = Some {| su_env := env; su_socket := s; su_stage := stage |}.
Proof. unfold suspend. by rewrite lookup_app_r, Nat.sub_diag by lia. Qed.

Lemma suspend_insert env s stage stage' ws :
  <[ length ws := {| su_env := env; su_socket := s; su_stage := stage' |} ]>
    (suspend env s stage ws) = suspend env s stage' ws.
Proof.
  unfold suspend. rewrite insert_app_r_alt, Nat.sub_diag by lia. done.
Qed.

Lemma suspend_delete env s stage ws :
  delete (length ws) (suspend env s stage ws) = ws.
Proof.
  unfold suspend. rewrite delete_take_drop.
  rewrite take_app_length. rewrite drop_ge; [by rewrite app_nil_r|].
  rewrite length_app. cbn. lia.
Qed.

Lemma loop_step_connection env s L :
  loop_step (Arrives env (Connection s)) L =
    ({| server := set_activeUsers (JsMap.set (userId s)
                    {| socketId := sid s; au_user := user s |}) (accept s (server L));
        waiting := suspend env s AwaitOnlineUpdate (waiting L) |}, []).
Proof. reflexivity. Qed.

Lemma loop_step_disconnect env from s L :
  sockets (server L) !! from = Some s →
  loop_step (Arrives env (Disconnect from)) L =
    if bool_decide (from ∈ listening (server L))
    then ({| server := set_activeUsers (JsMap.delete (userId s)) (close from (server L));
             waiting := suspend env s AwaitOfflineUpdate (waiting L) |}, [])
    else ({| server := close from (server L); waiting := waiting L |}, []).
Proof. intros Hs. cbn. rewrite Hs. by case_bool_decide. Qed.

Lemma loop_step_resume_online env s n L :
  waiting L !! n = Some (task env s AwaitOnlineUpdate) →
  loop_step (Resumes n) L =
    if throws env UserUpdate
    then ({| server := server L; waiting := delete n (waiting L) |}, [])
    else ({| server := set_db (set_users (alter (set_presence true (now env 0))
                                            (userId s))) (server L);
             waiting := <[ n := task env s AwaitUserChats ]> (waiting L) |}, []).
Proof.
  intros Hn. cbn. rewrite Hn. cbn.
  unfold connection_update, User_findByIdAndUpdate. m_unfold.
  by destruct (throws env UserUpdate).
Qed.

Lemma loop_step_resume_chats env s n L :
  waiting L !! n = Some (task env s AwaitUserChats) →
  loop_step (Resumes n) L =
    ({| server := (run_handler (connection_after_find env s) (server L)).1;
        waiting := delete n (waiting L) |},
     (run_handler (connection_after_find env s) (server L)).2).
Proof.
  intros Hn. cbn. rewrite Hn. cbn. unfold run_handler. rewrite bind_run.
  destruct (connection_after_find env s (server L) []) as [[w' out] [[]|e]]; done.
Qed.

Lemma loop_step_resume_offline env s n L :
  waiting L !! n = Some (task env s AwaitOfflineUpdate) →
  loop_step (Resumes n) L =
    ({| server := (run_handler (disconnect_after_await env s) (server L)).1;
        waiting := delete n (waiting L) |},
     (run_handler (disconnect_after_await env s) (server L)).2).
Proof.
  intros Hn. cbn. rewrite Hn. cbn. unfold run_handler. rewrite bind_run.
  destruct (disconnect_after_await env s (server L) []) as [[w' out] [[]|e]]; done.
Qed.

Lemma loop_step_resume_none n L :
  waiting L !! n = None → loop_step (Resumes n) L = (L, []).
Proof. intros Hn. cbn. by rewrite Hn. Qed.

(** With no other turn in between, a connection followed by the two
    resumptions of its handler, and a disconnection followed by the
    resumption of its handler, are the steps of [step]. *)
Lemma loop_connection_uninterrupted env s L :
  loop_run [Arrives env (Connection s); Resumes (length (waiting L));
            Resumes (length (waiting L))] L
  = ({| server := (step env (Connection s) (server L)).1; waiting := waiting L |},
     (step env (Connection s) (server L)).2).
Proof.
  destruct L as [w ws]. cbn [server waiting].
  rewrite loop_run_cons, loop_step_connection. cbn [fst snd server waiting].
  rewrite loop_run_cons, (loop_step_resume_online env s) by apply suspend_lookup.
  cbn [server waiting].
  unfold step, run_handler, on_connection, User_findByIdAndUpdate.
  m_unfold. destruct (throws env UserUpdate); cbn [fst snd server waiting].
  { rewrite suspend_delete. rewrite loop_run_cons, loop_step_resume_none
      by (by apply lookup_ge_None_2). done. }
  rewrite suspend_insert.
  rewrite loop_run_cons, (loop_step_resume_chats env s) by apply suspend_lookup.
  cbn [fst snd server waiting loop_run]. rewrite suspend_delete, app_nil_r.
  unfold run_handler, connection_after_find. rewrite !bind_run. cbn.
  by destruct (Chat_find env (userId s) _ _) as [[w' out] [l|e]].
Qed.

Lemma loop_disconnect_uninterrupted env from L :
  loop_run [Arrives env (Disconnect from); Resumes (length (waiting L))] L
  = ({| server := (step env (Disconnect from) (server L)).1; waiting := waiting L |},
     (step env (Disconnect from) (server L)).2).
Proof.
  destruct L as [w ws]. cbn [server waiting].
  rewrite loop_run_cons. unfold step.
  destruct (sockets w !! from) as [s|] eqn:Hs.
  2:{ cbn. rewrite Hs. cbn. by rewrite lookup_ge_None_2. }
  rewrite (loop_step_disconnect env from s) by done. cbn [server waiting].
  case_bool_decide; cbn [fst snd server waiting].
  2:{ by rewrite loop_run_cons, loop_step_resume_none by (by apply lookup_ge_None_2). }
  rewrite loop_run_cons, (loop_step_resume_offline env s) by apply suspend_lookup.
  cbn [fst snd server waiting loop_run]. rewrite suspend_delete, app_nil_r.
  done.
Qed.

(** ** Presence in the event loop *)





Lemma connection_after_find_run env s w :
  fault_free env →
  (run_handler (connection_after_find env s) w).2 =
    [{| recipients := dom (sockets w) ∖ {[ sid s ]};
        frame := userOnline (userId s) (username (user s)) |}] ∧
  sockets (run_handler (connection_after_find env s) w).1 = sockets w ∧
  listening (run_handler (connection_after_find env s) w).1 = {[ sid s ]} ∪ listening w.
Proof.
  intros Hok. unfold run_handler, connection_after_find, Chat_find, socket_broadcast_emit.
  m_unfold. rewrite !Hok. cbn.
  match goal with |- context [foldl ?f ?w0 ?l] =>
    destruct (foldl_join_fields (sid s) l w0) as (_ & Hs & Hl & _) end.
  by rewrite Hs, Hl.
Qed.





(** ** A disconnection while the connection handler is suspended *)

Lemma chats_found uid c (d : Db) :
  c ∈ (map_to_list (filter (λ kc, uid ∈ participants kc.2) (chats d))).*1
  ↔ is_participant uid c d = true.
Proof.
  unfold is_participant. rewrite list_elem_of_fmap. split.
  - intros ([c' cd] & -> & Hin%elem_of_map_to_list).
    apply map_lookup_filter_Some in Hin as [Hc Hp]. cbn in *.
    rewrite Hc. by apply bool_decide_eq_true.
  - destruct (chats d !! c) as [cd|] eqn:Hc; [|done].
    intros Hp%bool_decide_eq_true. exists (c, cd). split; [done|].
    apply elem_of_map_to_list. by apply map_lookup_filter_Some.
Qed.

Lemma connection_after_find_state env s w :
  fault_free env →
  (run_handler (connection_after_find env s) w).1 =
    set_listening (λ l, {[ sid s ]} ∪ l)
      (foldl (λ w chatId, join (sid s) chatId w) w
         (map_to_list (filter (λ kc, userId s ∈ participants kc.2) (chats (db w)))).*1).
Proof.
  intros Hok. unfold run_handler, connection_after_find, Chat_find, socket_broadcast_emit.
  m_unfold. by rewrite !Hok.
Qed.

Lemma racing_disconnect_state (early : bool) env env' s L :
  throws env UserUpdate = false →
  sid s ∉ listening (server L) →
  loop_run (racing_disconnect early env env' s (length (waiting L))) L =
    let w2 :=
      set_db (set_users (alter (set_presence true (now env 0)) (userId s)))
        (close (sid s)
           (set_activeUsers (JsMap.set (userId s)
              {| socketId := sid s; au_user := user s |}) (accept s (server L)))) in
    ({| server := (run_handler (connection_after_find env s) w2).1;
        waiting := waiting L |},
     (run_handler (connection_after_find env s) w2).2).
Proof.
  intros Hok Hnl. cbv zeta. destruct L as [w ws]. cbn [server waiting] in *.
  unfold racing_disconnect. destruct early; cbn [app].
  - rewrite loop_run_cons, loop_step_connection. cbn [fst snd server waiting].
    rewrite loop_run_cons, (loop_step_disconnect env' (sid s) s).
    2:{ cbn. unfold accept. cbn. by rewrite lookup_insert_eq. }
    cbn [server]. rewrite bool_decide_false by done. cbn [fst snd server waiting].
    rewrite loop_run_cons, (loop_step_resume_online env s) by apply suspend_lookup.
    rewrite Hok. cbn [fst snd server waiting]. rewrite suspend_insert.
    rewrite loop_run_cons, (loop_step_resume_chats env s) by apply suspend_lookup.
    cbn [fst snd server waiting loop_run]. by rewrite suspend_delete, app_nil_r.
  - rewrite loop_run_cons, loop_step_connection. cbn [fst snd server waiting].
    rewrite loop_run_cons, (loop_step_resume_online env s) by apply suspend_lookup.
    rewrite Hok. cbn [fst snd server waiting]. rewrite suspend_insert.
    rewrite loop_run_cons, (loop_step_disconnect env' (sid s) s).
    2:{ cbn. unfold accept. cbn. by rewrite lookup_insert_eq. }
    cbn [server]. rewrite bool_decide_false by done. cbn [fst snd server waiting].
    rewrite loop_run_cons, (loop_step_resume_chats env s) by apply suspend_lookup.
    cbn [fst snd server waiting loop_run]. by rewrite suspend_delete, app_nil_r.
Qed.

(** X1: when a socket disconnects while its connection handler is
    suspended at either of its awaits, the disconnection finds no listener:
    no [userOffline] is emitted, then or for a later disconnect of that
    id. When the handler resumes with its storage calls succeeding, it
    still broadcasts [userOnline], joins the socket to the rooms of its
    user's chats and registers its listeners; the socket is not connected,
    its user keeps the [activeUsers] entry and is stored as online. *)
Theorem disconnect_during_connection (early : bool) env env' s L :
  fault_free env →
  sid s ∉ listening (server L) →
  let r := loop_run (racing_disconnect early env env' s (length (waiting L))) L in
  r.2 = [{| recipients := dom (sockets (server L)) ∖ {[ sid s ]};
            frame := userOnline (userId s) (username (user s)) |}] ∧
  waiting r.1 = waiting L ∧
  (sid s ∉ dom (sockets (server r.1))) ∧
  sid s ∈ listening (server r.1) ∧
  (userId s, {| socketId := sid s; au_user := user s |}) ∈ activeUsers (server r.1) ∧
  (∀ du, users (db (server L)) !! userId s = Some du →
     users (db (server r.1)) !! userId s = Some (set_presence true (now env 0) du)) ∧
  (∀ c, is_participant (userId s) c (db (server L)) = true →
     sid s ∈ room c (server r.1)) ∧
  (∀ env'', loop_step (Arrives env'' (Disconnect (sid s))) r.1 = (r.1, [])).
Proof.
  intros Hok Hnl. cbv zeta. rewrite racing_disconnect_state by done. cbv zeta.
  cbn [fst snd server waiting].
  set (w2 := set_db _ (close _ _)).
  destruct (connection_after_find_run env s w2 Hok) as (Hout & Hsock & Hlist).
  assert (dom (sockets w2) = dom (sockets (server L)) ∖ {[ sid s ]}) as Hdom.
  { subst w2. cbn. unfold accept. cbn. rewrite dom_delete_L, dom_insert_L. set_solver. }
  assert (sid s ∉ dom (sockets (run_handler (connection_after_find env s) w2).1))
    as Hgone by (rewrite Hsock, Hdom; set_solver).
  split; [|split; [done|split; [exact Hgone|split; [|split; [|split; [|split]]]]]].
  - rewrite Hout, Hdom. do 2 f_equal. set_solver.
  - rewrite Hlist. set_solver.
  - rewrite connection_after_find_state by done. cbn.
    match goal with |- context [foldl ?f ?w0 ?l] =>
      destruct (foldl_join_fields (sid s) l w0) as (Ha & _) end.
    rewrite Ha. subst w2. cbn. apply JsMap_set_elem.
  - intros du Hdu. rewrite connection_after_find_state by done. cbn.
    match goal with |- context [foldl ?f ?w0 ?l] =>
      destruct (foldl_join_fields (sid s) l w0) as (_ & _ & _ & Hd) end.
    rewrite Hd. subst w2. cbn. by rewrite lookup_alter_eq, Hdu.
  - intros c Hp. rewrite connection_after_find_state by done.
    unfold room at 1. cbn. fold (room c).
    match goal with |- context [foldl ?f ?w0 ?l] =>
      change (sid s ∈ room c (foldl f w0 l)) end.
    apply room_foldl_join. left. by apply chats_found.
  - intros env''. cbn [loop_step server].
    apply not_elem_of_dom in Hgone. by rewrite Hgone.
Qed.

Lemma disconnect_during_connection_witness :
  (loop_run (racing_disconnect true (at_time 2 "m0") (at_time 3 "m0") phone 0) loop_bob).2
    = [{| recipients := dom (sockets server_bob) ∖ {[ "s1" ]};
          frame := userOnline "A" "alice" |}] ∧
  ("s1" ∉ dom (sockets (server (loop_run
      (racing_disconnect true (at_time 2 "m0") (at_time 3 "m0") phone 0) loop_bob).1))) ∧
  ("A", {| socketId := "s1"; au_user := alice |})
    ∈ activeUsers (server (loop_run
        (racing_disconnect true (at_time 2 "m0") (at_time 3 "m0") phone 0) loop_bob).1).
Proof.
  destruct (disconnect_during_connection true (at_time 2 "m0") (at_time 3 "m0") phone
              loop_bob) as (H1 & _ & H2 & _ & H3 & _ & _ & _);
    [intros c; reflexivity | by_compute |].
  split; [exact H1|]. split; [exact H2 | exact H3].
Defined.
